(** * ws-schema: the WsSchema class of src/WsSchema.ts

    A shallow embedding of the class [WsSchema] (constructor, [send],
    [sendData], [sendDataTo], the static [emit] and [receiver]) together
    with the JavaScript built-ins its control flow depends on
    ([JSON.parse], [JSON.stringify], property access, truthiness, property
    keys, [Set]), followed by the properties of the outbound builder and of
    the inbound dispatcher.

    Conventions.
    - A JavaScript string is held as the UTF-8 bytes of its text (the wire
      format of the library); string equality is byte equality.
    - A JSON number is held as the decimal [m * 10^e] it was written as,
      with [m] free of trailing zeros, so that equal numbers are equal
      values.  Truthiness follows the rounding of the literal to a double;
      printing is the one of [Number::toString] for numbers of at most 15
      significant digits.
    - Every JavaScript call is a computation in the monad [M]: it lists the
      calls made to the outside (validator, handlers, hooks, sockets) and
      ends normally or by a throw.
    - [receiver] is the method [receiver(on, config)] with the four error
      hooks of [config.errors]; [Legacy.receiver] is the method
      [receiver(on)] of the first class of the file, which has no hooks
      and logs through [console.error]. *)

From Stdlib Require Import ZArith Ascii String DecimalString.
From Stdlib Require DecimalPos DecimalN DecimalFacts.
From stdpp Require Import gmap strings list.

Open Scope string_scope.
Open Scope Z_scope.

(** ** Strings *)

Definition code (c : ascii) : N := N_of_ascii c.
Definition chr (n : N) : ascii := ascii_of_N n.

(** The double quote, U+0022. *)
Definition QUOTE : ascii := chr 34.
(** The reverse solidus, U+005C. *)
Definition BACKSLASH : ascii := chr 92.

Fixpoint string_of_chars (l : list ascii) : string :=
  match l with
  | [] => EmptyString
  | c :: r => String c (string_of_chars r)
  end.

Fixpoint chars_of_string (s : string) : list ascii :=
  match s with
  | EmptyString => []
  | String c r => c :: chars_of_string r
  end.

(** [dq s] is [s] with every apostrophe read as a double quote: JSON texts
    are written with apostrophes in this file. *)
Fixpoint dq (s : string) : string :=
  match s with
  | EmptyString => EmptyString
  | String c r => String (if (code c =? 39)%N then QUOTE else c) (dq r)
  end.

Fixpoint join (sep : string) (l : list string) : string :=
  match l with
  | [] => EmptyString
  | [x] => x
  | x :: r => x ++ sep ++ join sep r
  end.

Fixpoint zeros (n : nat) : string :=
  match n with
  | O => EmptyString
  | S k => String "0" (zeros k)
  end.

Definition digits_of_N (n : N) : string := NilZero.string_of_uint (N.to_uint n).

(** UTF-8 bytes of a code point (a lone surrogate takes the three-byte
    form). *)
Definition utf8 (n : N) : list ascii :=
  (if n <? 128 then [chr n]
   else if n <? 2048 then [chr (192 + n / 64); chr (128 + n mod 64)]
   else if n <? 65536 then
     [chr (224 + n / 4096); chr (128 + (n / 64) mod 64); chr (128 + n mod 64)]
   else
     [chr (240 + n / 262144); chr (128 + (n / 4096) mod 64);
      chr (128 + (n / 64) mod 64); chr (128 + n mod 64)])%N.

Definition hex_digit (n : N) : ascii :=
  (if n <? 10 then chr (48 + n) else chr (87 + n))%N.

(** ** JavaScript values

    The values [JSON.parse] can return, and [undefined]. *)

#[warnings="-register-all"]
Inductive value : Type :=
| VUndefined
| VNull
| VBool (b : bool)
| VNum (m e : Z)
| VStr (s : string)
| VArr (items : list value)
| VObj (props : list (string * value)).

(** Own property lookup and update of an object held as a property list;
    an update keeps the place of a key already there. *)
Fixpoint own_property (props : list (string * value)) (k : string) : option value :=
  match props with
  | [] => None
  | (k', v) :: r => if String.eqb k' k then Some v else own_property r k
  end.

Fixpoint set_property (props : list (string * value)) (k : string) (v : value)
  : list (string * value) :=
  match props with
  | [] => [(k, v)]
  | (k', v') :: r =>
      if String.eqb k' k then (k', v) :: r else (k', v') :: set_property r k v
  end.

(** Errors a computation can throw. *)
Inductive exn : Type :=
| SyntaxError
| TypeError
| ZodError
| Error (message : string).

Inductive completion (A : Type) : Type :=
| Normal (a : A)
| Throw (e : exn).
Arguments Normal {A} a.
Arguments Throw {A} e.

(** [ToBoolean].  A number literal is falsy when it rounds to zero as a
    double, that is when its magnitude is at most [2^-1075]. *)
Definition number_nonzero (m e : Z) : bool :=
  if m =? 0 then false
  else if 0 <=? e then true
  else 10 ^ (- e) <? Z.abs m * 2 ^ 1075.

Definition ToBoolean (v : value) : bool :=
  match v with
  | VUndefined | VNull => false
  | VBool b => b
  | VNum m e => number_nonzero m e
  | VStr s => negb (String.eqb s EmptyString)
  | VArr _ | VObj _ => true
  end.

(** [typeof v === "string"]. *)
Definition typeof_string (v : value) : bool :=
  match v with VStr _ => true | _ => false end.

(** [o.name] for a name that no built-in prototype defines (the receiver
    reads [event] and [data] only): reading a property of [null] or
    [undefined] throws, a primitive or an array has no such property. *)
Definition Get (o : value) (name : string) : completion value :=
  match o with
  | VUndefined | VNull => Throw TypeError
  | VObj props => Normal (default VUndefined (own_property props name))
  | _ => Normal VUndefined
  end.

(** [Number::toString] of the decimal [m * 10^e], [m] without trailing
    zeros. *)
Definition Number_toString (m e : Z) : string :=
  if m =? 0 then "0" else
  let s := digits_of_N (Z.to_N (Z.abs m)) in
  let k := Z.of_nat (String.length s) in
  let n := k + e in
  let body :=
    if (k <=? n) && (n <=? 21) then s ++ zeros (Z.to_nat (n - k))
    else if (0 <? n) && (n <=? 21) then
      substring 0 (Z.to_nat n) s ++ "." ++ substring (Z.to_nat n) (Z.to_nat (k - n)) s
    else if (-6 <? n) && (n <=? 0) then "0." ++ zeros (Z.to_nat (- n)) ++ s
    else
      let x := n - 1 in
      let mantissa :=
        if k =? 1 then s
        else substring 0 1 s ++ "." ++ substring 1 (Z.to_nat (k - 1)) s in
      mantissa ++ "e" ++ (if x <? 0 then "-" else "+") ++ digits_of_N (Z.to_N (Z.abs x))
  in (if m <? 0 then "-" else EmptyString) ++ body.

(** [ToString], as used for a property key.  An array joins its elements
    ([null] and [undefined] give the empty text); a plain object gives
    ["[object Object]"], unless it carries an own [toString], which a decoded
    value cannot call: the conversion then throws. *)
Fixpoint ToString (v : value) : completion string :=
  match v with
  | VUndefined => Normal "undefined"
  | VNull => Normal "null"
  | VBool true => Normal "true"
  | VBool false => Normal "false"
  | VNum m e => Normal (Number_toString m e)
  | VStr s => Normal s
  | VArr items =>
      let fix elements (l : list value) : completion (list string) :=
        match l with
        | [] => Normal []
        | x :: r =>
            match (match x with
                   | VUndefined | VNull => Normal EmptyString
                   | _ => ToString x
                   end) with
            | Throw e => Throw e
            | Normal t =>
                match elements r with
                | Throw e => Throw e
                | Normal ts => Normal (t :: ts)
                end
            end
        end in
      match elements items with
      | Throw e => Throw e
      | Normal ts => Normal (join "," ts)
      end
  | VObj props =>
      match own_property props "toString" with
      | Some _ => Throw TypeError
      | None => Normal "[object Object]"
      end
  end.

Definition ToPropertyKey (v : value) : completion string := ToString v.

(** Names every plain object inherits from [Object.prototype]; each is bound
    to a truthy value there. *)
Definition Object_prototype_names : list string :=
  [ "constructor"; "hasOwnProperty"; "isPrototypeOf"; "propertyIsEnumerable";
    "toLocaleString"; "toString"; "valueOf"; "__proto__";
    "__defineGetter__"; "__defineSetter__"; "__lookupGetter__"; "__lookupSetter__" ].

(** ** JSON.parse

    The decoder is a lexer that reads the text one character at a time,
    followed by a pushdown automaton over the tokens; both are folds, so
    decoding is total.  A text outside the JSON grammar is a
    [SyntaxError]. *)

Module JSON.

Inductive token : Type :=
| TLBrace | TRBrace | TLBracket | TRBracket | TColon | TComma
| TString (s : string)
| TNumber (m e : Z)
| TTrue | TFalse | TNull.

(** A character of a string literal: a character of the text, or the code
    unit of a [\uXXXX] escape, kept apart until the literal closes so that a
    surrogate pair of escapes gives one code point. *)
Inductive piece : Type :=
| Raw (c : ascii)
| Unit (u : N).

Definition is_high_surrogate (u : N) : bool := ((55296 <=? u) && (u <=? 56319))%N.
Definition is_low_surrogate (u : N) : bool := ((56320 <=? u) && (u <=? 57343))%N.

Fixpoint decode_pieces (ps : list piece) : list ascii :=
  match ps with
  | [] => []
  | Raw c :: r => c :: decode_pieces r
  | Unit hi :: r =>
      match r with
      | Unit lo :: r' =>
          if is_high_surrogate hi && is_low_surrogate lo
          then (utf8 (65536 + (hi - 55296) * 1024 + (lo - 56320))%N ++ decode_pieces r')%list
          else (utf8 hi ++ decode_pieces r)%list
      | _ => (utf8 hi ++ decode_pieces r)%list
      end
  end.

(** Where the lexer stands inside a number literal: an optional minus, then
    a zero or a digit string without leading zero, then an optional point
    with at least one digit, then an optional exponent with its sign. *)
Inductive numstate : Type :=
| NMinus | NZero | NInt | NDot | NFrac | NExp | NExpSign | NExpDigits.

(** The number read so far: sign, digits of integer and fraction part (last
    digit first), count of fraction digits, sign and value of the
    exponent. *)
Record numacc : Type := {
  negative : bool;
  digits : list N;
  scale : Z;
  exp_negative : bool;
  exponent : Z
}.

Definition numacc_init (neg : bool) (ds : list N) : numacc :=
  {| negative := neg; digits := ds; scale := 0; exp_negative := false; exponent := 0 |}.

Fixpoint strip_zeros (ds : list N) : list N * Z :=
  match ds with
  | d :: r => if (d =? 0)%N then let (ds', k) := strip_zeros r in (ds', k + 1) else (ds, 0)
  | [] => ([], 0)
  end.

(** Value of a digit list, last digit first. *)
Fixpoint digits_value (ds : list N) : Z :=
  match ds with
  | [] => 0
  | d :: r => Z.of_N d + 10 * digits_value r
  end.

Definition number_token (a : numacc) : token :=
  let (ds, k) := strip_zeros (digits a) in
  match ds with
  | [] => TNumber 0 0
  | _ =>
      let m := digits_value ds in
      let x := if exp_negative a then - exponent a else exponent a in
      TNumber (if negative a then - m else m) (x - scale a + k)
  end.

Inductive lexstate : Type :=
| LDefault
| LString (acc : list piece)
| LEscape (acc : list piece)
| LUnicode (acc : list piece) (count : nat) (u : N)
| LNumber (st : numstate) (a : numacc)
| LWord (rest : list ascii) (t : token).

Definition is_digit (c : ascii) : bool := ((48 <=? code c) && (code c <=? 57))%N.
Definition digit (c : ascii) : N := (code c - 48)%N.

Definition hex_value (c : ascii) : option N :=
  let n := code c in
  (if (48 <=? n) && (n <=? 57) then Some (n - 48)
   else if (97 <=? n) && (n <=? 102) then Some (n - 87)
   else if (65 <=? n) && (n <=? 70) then Some (n - 55)
   else None)%N.

Definition is_whitespace (c : ascii) : bool :=
  let n := code c in ((n =? 9) || (n =? 10) || (n =? 13) || (n =? 32))%N.

(** A step of the lexer between tokens. *)
Definition lex_default (c : ascii) : option (lexstate * list token) :=
  if is_whitespace c then Some (LDefault, [])
  else if is_digit c then
    Some (LNumber (if (digit c =? 0)%N then NZero else NInt) (numacc_init false [digit c]), [])
  else
    match c with
    | "{"%char => Some (LDefault, [TLBrace])
    | "}"%char => Some (LDefault, [TRBrace])
    | "["%char => Some (LDefault, [TLBracket])
    | "]"%char => Some (LDefault, [TRBracket])
    | ":"%char => Some (LDefault, [TColon])
    | ","%char => Some (LDefault, [TComma])
    | "-"%char => Some (LNumber NMinus (numacc_init true []), [])
    | "n"%char => Some (LWord (chars_of_string "ull") TNull, [])
    | "t"%char => Some (LWord (chars_of_string "rue") TTrue, [])
    | "f"%char => Some (LWord (chars_of_string "alse") TFalse, [])
    | _ => if (code c =? 34)%N then Some (LString [], []) else None
    end.

Definition push_digit (a : numacc) (d : N) (fraction : bool) : numacc :=
  {| negative := negative a; digits := d :: digits a;
     scale := if fraction then scale a + 1 else scale a;
     exp_negative := exp_negative a; exponent := exponent a |}.

Definition push_exp_digit (a : numacc) (d : N) : numacc :=
  {| negative := negative a; digits := digits a; scale := scale a;
     exp_negative := exp_negative a; exponent := 10 * exponent a + Z.of_N d |}.

Definition set_exp_negative (a : numacc) : numacc :=
  {| negative := negative a; digits := digits a; scale := scale a;
     exp_negative := true; exponent := exponent a |}.

(** The number literal ends before [c]: its token is emitted and [c] is
    read as the start of what follows. *)
Definition end_number (a : numacc) (c : ascii) : option (lexstate * list token) :=
  match lex_default c with
  | Some (st, ts) => Some (st, number_token a :: ts)
  | None => None
  end.

Definition is_e (c : ascii) : bool := ((code c =? 101) || (code c =? 69))%N.

Definition lex_number (st : numstate) (a : numacc) (c : ascii)
  : option (lexstate * list token) :=
  match st with
  | NMinus =>
      if is_digit c
      then Some (LNumber (if (digit c =? 0)%N then NZero else NInt) (push_digit a (digit c) false), [])
      else None
  | NZero =>
      if (code c =? 46)%N then Some (LNumber NDot a, [])
      else if is_e c then Some (LNumber NExp a, [])
      else end_number a c
  | NInt =>
      if is_digit c then Some (LNumber NInt (push_digit a (digit c) false), [])
      else if (code c =? 46)%N then Some (LNumber NDot a, [])
      else if is_e c then Some (LNumber NExp a, [])
      else end_number a c
  | NDot =>
      if is_digit c then Some (LNumber NFrac (push_digit a (digit c) true), []) else None
  | NFrac =>
      if is_digit c then Some (LNumber NFrac (push_digit a (digit c) true), [])
      else if is_e c then Some (LNumber NExp a, [])
      else end_number a c
  | NExp =>
      if is_digit c then Some (LNumber NExpDigits (push_exp_digit a (digit c)), [])
      else if (code c =? 43)%N then Some (LNumber NExpSign a, [])
      else if (code c =? 45)%N then Some (LNumber NExpSign (set_exp_negative a), [])
      else None
  | NExpSign =>
      if is_digit c then Some (LNumber NExpDigits (push_exp_digit a (digit c)), []) else None
  | NExpDigits =>
      if is_digit c then Some (LNumber NExpDigits (push_exp_digit a (digit c)), [])
      else end_number a c
  end.

Definition lex_escape (acc : list piece) (c : ascii) : option (lexstate * list token) :=
  let n := code c in
  (if (n =? 34) || (n =? 92) || (n =? 47) then Some (LString (Raw c :: acc), [])
   else if n =? 98 then Some (LString (Raw (chr 8) :: acc), [])
   else if n =? 102 then Some (LString (Raw (chr 12) :: acc), [])
   else if n =? 110 then Some (LString (Raw (chr 10) :: acc), [])
   else if n =? 114 then Some (LString (Raw (chr 13) :: acc), [])
   else if n =? 116 then Some (LString (Raw (chr 9) :: acc), [])
   else if n =? 117 then Some (LUnicode acc 0 0, [])
   else None)%N.

Definition lex_step (st : lexstate) (c : ascii) : option (lexstate * list token) :=
  match st with
  | LDefault => lex_default c
  | LString acc =>
      if (code c =? 34)%N
      then Some (LDefault, [TString (string_of_chars (decode_pieces (rev acc)))])
      else if (code c =? 92)%N then Some (LEscape acc, [])
      else if (code c <? 32)%N then None
      else Some (LString (Raw c :: acc), [])
  | LEscape acc => lex_escape acc c
  | LUnicode acc count u =>
      match hex_value c with
      | None => None
      | Some h =>
          let u' := (16 * u + h)%N in
          if (count =? 3)%nat then Some (LString (Unit u' :: acc), [])
          else Some (LUnicode acc (S count) u', [])
      end
  | LNumber ns a => lex_number ns a c
  | LWord rest t =>
      match rest with
      | [] => None
      | x :: rest' =>
          if Ascii.eqb x c
          then match rest' with
               | [] => Some (LDefault, [t])
               | _ => Some (LWord rest' t, [])
               end
          else None
      end
  end.

(** At the end of the text only a complete number may be pending. *)
Definition lex_end (st : lexstate) : option (list token) :=
  match st with
  | LDefault => Some []
  | LNumber (NZero | NInt | NFrac | NExpDigits) a => Some [number_token a]
  | _ => None
  end.

Fixpoint lex (st : lexstate) (text : string) : option (list token) :=
  match text with
  | EmptyString => lex_end st
  | String c r =>
      match lex_step st c with
      | None => None
      | Some (st', ts) =>
          match lex st' r with
          | None => None
          | Some ts' => Some (ts ++ ts')%list
          end
      end
  end.

(** An array or an object under construction, waiting for the value being
    read. *)
Inductive frame : Type :=
| FArray (items : list value)
| FObject (props : list (string * value)) (key : string).

Inductive pstate : Type :=
| PValue (stack : list frame)
| PFirstItem (stack : list frame)
| PFirstKey (stack : list frame)
| PKey (props : list (string * value)) (stack : list frame)
| PColon (props : list (string * value)) (key : string) (stack : list frame)
| PArrayNext (items : list value) (stack : list frame)
| PObjectNext (props : list (string * value)) (stack : list frame)
| PDone (v : value).

(** A value is complete: it goes into the innermost open array or object,
    or it is the result.  A key given twice keeps its last value. *)
Definition after_value (v : value) (stack : list frame) : pstate :=
  match stack with
  | [] => PDone v
  | FArray items :: stack' => PArrayNext (v :: items) stack'
  | FObject props key :: stack' => PObjectNext (set_property props key v) stack'
  end.

Definition start_value (t : token) (stack : list frame) : option pstate :=
  match t with
  | TLBrace => Some (PFirstKey stack)
  | TLBracket => Some (PFirstItem stack)
  | TString s => Some (after_value (VStr s) stack)
  | TNumber m e => Some (after_value (VNum m e) stack)
  | TTrue => Some (after_value (VBool true) stack)
  | TFalse => Some (after_value (VBool false) stack)
  | TNull => Some (after_value VNull stack)
  | _ => None
  end.

Definition parse_step (st : pstate) (t : token) : option pstate :=
  match st, t with
  | PValue stack, _ => start_value t stack
  | PFirstItem stack, TRBracket => Some (after_value (VArr []) stack)
  | PFirstItem stack, _ => start_value t (FArray [] :: stack)
  | PFirstKey stack, TRBrace => Some (after_value (VObj []) stack)
  | PFirstKey stack, TString k => Some (PColon [] k stack)
  | PKey props stack, TString k => Some (PColon props k stack)
  | PColon props k stack, TColon => Some (PValue (FObject props k :: stack))
  | PArrayNext items stack, TComma => Some (PValue (FArray items :: stack))
  | PArrayNext items stack, TRBracket => Some (after_value (VArr (rev items)) stack)
  | PObjectNext props stack, TComma => Some (PKey props stack)
  | PObjectNext props stack, TRBrace => Some (after_value (VObj props) stack)
  | _, _ => None
  end.

Fixpoint parse_tokens (st : pstate) (ts : list token) : option value :=
  match ts with
  | [] => match st with PDone v => Some v | _ => None end
  | t :: r =>
      match parse_step st t with
      | None => None
      | Some st' => parse_tokens st' r
      end
  end.

(** [JSON.parse(text)]. *)
Definition parse (text : string) : completion value :=
  match lex LDefault text with
  | None => Throw SyntaxError
  | Some ts =>
      match parse_tokens (PValue []) ts with
      | None => Throw SyntaxError
      | Some v => Normal v
      end
  end.

(** [QuoteJSONString]. *)
Definition quote_char (c : ascii) : list ascii :=
  let n := code c in
  (if n =? 34 then [BACKSLASH; QUOTE]
   else if n =? 92 then [BACKSLASH; BACKSLASH]
   else if n =? 8 then [BACKSLASH; "b"%char]
   else if n =? 12 then [BACKSLASH; "f"%char]
   else if n =? 10 then [BACKSLASH; "n"%char]
   else if n =? 13 then [BACKSLASH; "r"%char]
   else if n =? 9 then [BACKSLASH; "t"%char]
   else if n <? 32 then
     [BACKSLASH; "u"%char; "0"%char; "0"%char; hex_digit (n / 16); hex_digit (n mod 16)]
   else [c])%N.

Definition quote (s : string) : string :=
  String QUOTE (string_of_chars (flat_map quote_char (chars_of_string s)))
  ++ String QUOTE EmptyString.

(** [SerializeJSONProperty]: [None] stands for [undefined].  An
    [undefined] array element is written [null], an [undefined] property is
    left out. *)
Fixpoint serialize (v : value) : option string :=
  match v with
  | VUndefined => None
  | VNull => Some "null"
  | VBool true => Some "true"
  | VBool false => Some "false"
  | VNum m e => Some (Number_toString m e)
  | VStr s => Some (quote s)
  | VArr items =>
      let fix elements (l : list value) : list string :=
        match l with
        | [] => []
        | x :: r => default "null" (serialize x) :: elements r
        end in
      Some ("[" ++ join "," (elements items) ++ "]")
  | VObj props =>
      let fix members (l : list (string * value)) : list string :=
        match l with
        | [] => []
        | (k, x) :: r =>
            match serialize x with
            | None => members r
            | Some t => (quote k ++ ":" ++ t) :: members r
            end
        end in
      Some ("{" ++ join "," (members props) ++ "}")
  end.

(** [JSON.stringify(v)]: a string, or [undefined]. *)
Definition stringify (v : value) : value :=
  match serialize v with
  | Some s => VStr s
  | None => VUndefined
  end.

End JSON.

(** ** Computations

    What a call of the library does to the outside is the list of calls it
    makes, in order: to a validator, to a handler of the receiver, to an
    error hook, to the [send] of a socket.  A callback is known by what it
    returns or throws on each argument. *)

(** A [WebSocket] is an object: it is known by its reference, and its
    method [send] by what it returns or throws on each text. *)
Record WebSocket : Type := {
  reference : nat;
  socket_send : value -> completion value
}.

Inductive hook : Type :=
| PayloadIsNonJSON
| MalformedJSON
| UnrecognisedEvent
| InvalidPayload.

Inductive call : Type :=
| Validate (event : string) (candidate : value)
| Handle (event : string) (payload : value)
| Report (h : hook) (received : value)
| Send (socket : WebSocket) (text : value).

Definition M (A : Type) : Type := (list call * completion A)%type.

Definition ret {A} (a : A) : M A := ([], Normal a).

Definition bind {A B} (m : M A) (f : A -> M B) : M B :=
  match m with
  | (t, Normal a) => let (t', r) := f a in ((t ++ t')%list, r)
  | (t, Throw e) => (t, Throw e)
  end.

Definition throw {A} (e : exn) : M A := ([], Throw e).

Definition lift {A} (c : completion A) : M A := ([], c).

Definition perform (c : call) : M unit := ([c], Normal tt).

(** [try { m } catch (e) { handler e }]. *)
Definition try_catch {A} (m : M A) (handler : exn -> M A) : M A :=
  match m with
  | (t, Throw e) => let (t', r) := handler e in ((t ++ t')%list, r)
  | (t, Normal a) => (t, Normal a)
  end.

Declare Scope js_scope.
Delimit Scope js_scope with js.
Notation "x <- m ;; k" := (bind m (fun x => k))
  (at level 100, m at next level, right associativity) : js_scope.
Notation "m ;; k" := (bind m (fun _ => k))
  (at level 100, right associativity) : js_scope.
Open Scope js_scope.

Definition trace {A} (m : M A) : list call := fst m.
Definition outcome {A} (m : M A) : completion A := snd m.

(** [if (b) m;] *)
Definition when (b : bool) (m : M value) : M value :=
  if b then m else ret VUndefined.

Definition callback : Type := value -> completion value.

(** [f?.(arg)], the call being listed as [c]. *)
Definition optional_call (c : call) (f : option callback) (arg : value) : M value :=
  match f with
  | Some f => perform c ;; lift (f arg)
  | None => ret VUndefined
  end.

(** ** Validators

    A [ZodType] is known by its [parse]: it returns the parsed value, or
    throws; a [ZodError] is the failure of validation. *)
Record ZodType : Type := { parse : value -> completion value }.

(** ** The class *)

Record WsSchema : Type := { validators : gmap string ZodType }.

(** [new WsSchema(validators)] *)
Definition new_WsSchema (validators : gmap string ZodType) : WsSchema :=
  {| validators := validators |}.

(** What [this.validators[key]] evaluates to: a validator of the schema,
    a member inherited from [Object.prototype], or [undefined]. *)
Inductive slot : Type :=
| Validator (z : ZodType)
| Inherited
| Undefined.

Definition validators_at (this : WsSchema) (key : string) : slot :=
  match validators this !! key with
  | Some z => Validator z
  | None =>
      if bool_decide (key ∈ Object_prototype_names) then Inherited else Undefined
  end.

Definition slot_truthy (s : slot) : bool :=
  match s with Undefined => false | _ => true end.

(** *** Outbound: send, sendData, sendDataTo, emit *)

(** The argument of [to]: one socket or an array of sockets. *)
Inductive recipients : Type :=
| Socket (ws : WebSocket)
| Sockets (l : list WebSocket).

(** [new Set(l)]: the elements of [l] in order of first occurrence.  Two
    sockets are the same element when they are the same object, that is
    when they have the same reference. *)
Definition Set_has (s : list WebSocket) (x : WebSocket) : bool :=
  bool_decide (reference x ∈ map reference s).

Definition Set_add (s : list WebSocket) (x : WebSocket) : list WebSocket :=
  if Set_has s x then s else (s ++ [x])%list.

Definition new_Set (l : list WebSocket) : list WebSocket := fold_left Set_add l [].

Fixpoint forEach {A} (l : list A) (f : A -> M value) : M value :=
  match l with
  | [] => ret VUndefined
  | x :: r => f x ;; forEach r f
  end.

(** The object literal [{ event: event, data: data }]. *)
Definition envelope (event : string) (data : value) : value :=
  VObj [("event", VStr event); ("data", data)].

Definition WsSchema_emit (eventID : string) (data : value) (to : recipients) : M value :=
  let sockets := new_Set (match to with Sockets l => l | Socket ws => [ws] end) in
  forEach sockets (fun socket =>
    let text := JSON.stringify (envelope eventID data) in
    perform (Send socket text) ;;
    lift (socket_send socket text)).

Record Emitter : Type := { emit : unit -> M value }.

Record Message : Type := {
  to : recipients -> M Emitter;
  object : unit -> M value;
  stringify : unit -> M value
}.

Record Builder : Type := { data : value -> M Message }.


Definition sendDataTo (this : WsSchema) (event : string) (d : value) (r : recipients)
  : Emitter :=
  {| emit := fun _ => WsSchema_emit event d r ;; ret VUndefined |}.

Definition sendData (this : WsSchema) (event : string) (d : value) : Message :=
  {| to := fun r => ret (sendDataTo this event d r);
     object := fun _ => ret (envelope event d);
     stringify := fun _ => ret (JSON.stringify (envelope event d)) |}.

Definition send (this : WsSchema) (event : string) : M Builder :=
  ret {| data := fun d => ret (sendData this event d) |}.

(** *** Inbound: receiver *)

Record Errors : Type := {
  onPayloadIsNonJSON : option callback;
  onMalformedJSON : option callback;
  onUnrecognisedEvent : option callback;
  onInvalidPayload : option callback
}.

Record Config : Type := { errors : option Errors }.

(** [config.errors?.h] *)
Definition errors_hook (config : Config) (h : Errors -> option callback) : option callback :=
  match errors config with
  | Some e => h e
  | None => None
  end.

(** The handler table: an own key is bound to a callback or to
    [undefined]. *)
Definition Object_keys {A} (o : gmap string A) : list string := (map_to_list o).*1.

(** [keys.includes(v)]: a value that is not a string equals no key. *)
Definition includes (keys : list string) (v : value) : bool :=
  match v with
  | VStr s => bool_decide (s ∈ keys)
  | _ => false
  end.

(** [{ event: json.event, payload: json.data }] *)
Definition received (json : value) : M value :=
  e <- lift (Get json "event") ;;
  d <- lift (Get json "data") ;;
  ret (VObj [("event", e); ("payload", d)]).

Definition receiver (this : WsSchema) (on : gmap string (option callback))
    (config : Config) (incomingMessageString : string) : M value :=
  try_catch
    ((* const json = JSON.parse(incomingMessageString); *)
     json <- lift (JSON.parse incomingMessageString) ;;
     (* if (!json.event || !json.data || typeof json.event !== "string")
          config.errors?.onMalformedJSON?.(json); *)
     malformed <-
       (e <- lift (Get json "event") ;;
        if negb (ToBoolean e) then ret true else
        d <- lift (Get json "data") ;;
        if negb (ToBoolean d) then ret true else
        e' <- lift (Get json "event") ;;
        ret (negb (typeof_string e'))) ;;
     when malformed
       (optional_call (Report MalformedJSON json)
          (errors_hook config onMalformedJSON) json) ;;
     (* if (!this.validators[json.event])
          config.errors?.onUnrecognisedEvent?.({ event: json.event, payload: json.data }); *)
     e <- lift (Get json "event") ;;
     key <- lift (ToPropertyKey e) ;;
     when (negb (slot_truthy (validators_at this key)))
       (r <- received json ;;
        optional_call (Report UnrecognisedEvent r)
          (errors_hook config onUnrecognisedEvent) r) ;;
     (* if (!Object.keys(on).includes(json.event)) return; *)
     e <- lift (Get json "event") ;;
     if negb (includes (Object_keys on) e) then ret VUndefined else
     (* try { this.validators[json.event]!.parse(json.data); }
        catch (e) {
          if (e instanceof ZodError)
            config.errors?.onInvalidPayload?.({ event: json.event, payload: json.data });
          else throw e;
        } *)
     try_catch
       (e <- lift (Get json "event") ;;
        key <- lift (ToPropertyKey e) ;;
        match validators_at this key with
        | Validator z =>
            d <- lift (Get json "data") ;;
            perform (Validate key d) ;;
            lift (parse z d)
        | Inherited | Undefined => throw TypeError
        end)
       (fun err =>
          match err with
          | ZodError =>
              r <- received json ;;
              optional_call (Report InvalidPayload r)
                (errors_hook config onInvalidPayload) r
          | _ => throw err
          end) ;;
     (* on[json.event]?.(json.data); *)
     e <- lift (Get json "event") ;;
     key <- lift (ToPropertyKey e) ;;
     d <- lift (Get json "data") ;;
     optional_call (Handle key d) (default None (on !! key)) d ;;
     ret VUndefined)
    (* catch (e) {
         if (e instanceof SyntaxError) config.errors?.onPayloadIsNonJSON?.(incomingMessageString);
         else throw e;
       } *)
    (fun err =>
       match err with
       | SyntaxError =>
           optional_call (Report PayloadIsNonJSON (VStr incomingMessageString))
             (errors_hook config onPayloadIsNonJSON) (VStr incomingMessageString) ;;
           ret VUndefined
       | _ => throw err
       end).

(** ** Schemas used in the examples

    Validators of the zod library, by what their [parse] accepts:
    [z.string()] a string, [z.number()] a number, [z.boolean()] a boolean,
    and [z.object({})] any object that is not an array, of which it keeps no
    key. *)
Module z.

Definition string : ZodType :=
  {| parse := fun v => match v with VStr _ => Normal v | _ => Throw ZodError end |}.

Definition number : ZodType :=
  {| parse := fun v => match v with VNum _ _ => Normal v | _ => Throw ZodError end |}.

Definition boolean : ZodType :=
  {| parse := fun v => match v with VBool _ => Normal v | _ => Throw ZodError end |}.

Definition object_empty : ZodType :=
  {| parse := fun v => match v with VObj _ => Normal (VObj []) | _ => Throw ZodError end |}.

End z.

(** A callback that returns [undefined] on every argument. *)
Definition quiet : callback := fun _ => Normal VUndefined.

Definition all_hooks : Config :=
  {| errors := Some {| onPayloadIsNonJSON := Some quiet;
                       onMalformedJSON := Some quiet;
                       onUnrecognisedEvent := Some quiet;
                       onInvalidPayload := Some quiet |} |}.

(** The default [config = {}]. *)
Definition no_hooks : Config := {| errors := None |}.

(** An open socket: its [send] returns. *)
Definition open_socket (n : nat) : WebSocket :=
  {| reference := n; socket_send := fun _ => Normal VUndefined |}.


(** [new WsSchema({ message: z.string() })] *)
Definition chat : WsSchema := new_WsSchema {[ "message" := z.string ]}.

(** [new WsSchema({ heartbeat: z.number(), message: z.string(),
    typing: z.boolean(), status: z.object({}) })] *)
Definition demo : WsSchema :=
  new_WsSchema
    (<[ "heartbeat" := z.number ]>
       (<[ "message" := z.string ]>
          (<[ "typing" := z.boolean ]> {[ "status" := z.object_empty ]}))).

(** ** What a trace shows *)

(** The handler calls of a trace, with the payload each was given. *)
Fixpoint handled (t : list call) : list (string * value) :=
  match t with
  | [] => []
  | Handle event payload :: r => (event, payload) :: handled r
  | _ :: r => handled r
  end.

(** The error hooks a trace calls, in order. *)
Fixpoint reported (t : list call) : list hook :=
  match t with
  | [] => []
  | Report h _ :: r => h :: reported r
  | _ :: r => reported r
  end.

(** The validator calls of a trace. *)
Fixpoint validated (t : list call) : list (string * value) :=
  match t with
  | [] => []
  | Validate event candidate :: r => (event, candidate) :: validated r
  | _ :: r => validated r
  end.


Definition is_send (c : call) : Prop :=
  match c with Send _ _ => True | _ => False end.

(** The sockets that [forEach] reaches when each is sent [text]: those up to
    the first whose [send] throws, that one included. *)
Fixpoint attempted (text : value) (sockets : list WebSocket) : list WebSocket :=
  match sockets with
  | [] => []
  | x :: r =>
      x :: match socket_send x text with
           | Normal _ => attempted text r
           | Throw _ => []
           end
  end.

(** How sending [text] to each of the sockets ends: by the first throw, or
    normally. *)
Fixpoint sends_outcome (text : value) (sockets : list WebSocket) : completion value :=
  match sockets with
  | [] => Normal VUndefined
  | x :: r =>
      match socket_send x text with
      | Normal _ => sends_outcome text r
      | Throw e => Throw e
      end
  end.


(** Every call of the computation satisfies [Q]. *)
Definition all_calls {A} (Q : call -> Prop) (m : M A) : Prop := Forall Q (trace m).

(** Every value the computation returns satisfies [P]. *)
Definition returns {A} (P : A -> Prop) (m : M A) : Prop :=
  forall a, outcome m = Normal a -> P a.

(** The claim of a result value, read on the returned value alone: some
    reading of what the receiver returns tells which error hooks, if any,
    the message made it call. *)
Definition result_describes (this : WsSchema) (on : gmap string (option callback))
    (config : Config) : Prop :=
  exists describe : completion value -> list hook,
    forall s, describe (outcome (receiver this on config s))
              = reported (trace (receiver this on config s)).

(** A handler call carries the raw payload of the text [s]: the event and
    the payload it is given are the [event] and [data] members of the value
    [s] decodes to. *)
Definition carries_raw_data (s : string) (c : call) : Prop :=
  match c with
  | Handle event payload =>
      exists json, JSON.parse s = Normal json /\
                   Get json "event" = Normal (VStr event) /\
                   Get json "data" = Normal payload
  | _ => True
  end.

(** The text [{"event":"message","data":"hi"}]. *)
Definition hi_text : string := dq "{'event':'message','data':'hi'}".

(** ** Assumptions on callbacks and tables

    Properties of the receiver that hold for callbacks of a certain kind
    name the kind here. *)

(** A callback that returns on every argument. *)
Definition returns_always (f : callback) : Prop := forall v, exists r, f v = Normal r.

(** A hook that, if set, returns on every argument. *)
Definition hook_returns (f : option callback) : Prop :=
  forall g, f = Some g -> returns_always g.

Definition hooks_return (config : Config) : Prop :=
  hook_returns (errors_hook config onPayloadIsNonJSON) /\
  hook_returns (errors_hook config onMalformedJSON) /\
  hook_returns (errors_hook config onUnrecognisedEvent) /\
  hook_returns (errors_hook config onInvalidPayload).

Definition handlers_return (on : gmap string (option callback)) : Prop :=
  forall k f, on !! k = Some (Some f) -> returns_always f.

(** Validators whose [parse] throws nothing but a [ZodError]. *)
Definition validators_throw_ZodError (this : WsSchema) : Prop :=
  forall k z v e, validators this !! k = Some z -> parse z v = Throw e -> e = ZodError.

(** The handler table has keys of the schema only, as its type
    [Partial<{[K in keyof T]: ...}>] asks. *)
Definition handlers_in_schema (this : WsSchema) (on : gmap string (option callback))
  : Prop :=
  forall k, is_Some (on !! k) -> is_Some (validators this !! k).

(** The hook of [config.errors] that reports the category [h]. *)
Definition hook_of (config : Config) (h : hook) : option callback :=
  errors_hook config
    match h with
    | PayloadIsNonJSON => onPayloadIsNonJSON
    | MalformedJSON => onMalformedJSON
    | UnrecognisedEvent => onUnrecognisedEvent
    | InvalidPayload => onInvalidPayload
    end.

(** The calls [f?.(arg)] makes: the call [c] if [f] is set, none otherwise. *)
Definition call_if_set (c : call) (f : option callback) : list call :=
  match f with Some _ => [c] | None => [] end.

Definition is_report (c : call) : Prop :=
  match c with Report _ _ => True | _ => False end.

(** The calls of the computation are among those of [L], in the order of
    [L], each at most as often as [L] lists it. *)
Definition calls_within {A} (L : list call) (m : M A) : Prop := trace m `sublist_of` L.

(** What a hook call of the receiver on the text [s] rests on: the hook is
    set, it is given the raw context of its category, and the condition of
    the category holds of the decoded text. *)
Definition report_justified (this : WsSchema) (config : Config) (s : string) (c : call)
  : Prop :=
  match c with
  | Report h arg =>
      is_Some (hook_of config h) /\
      match h with
      | PayloadIsNonJSON => arg = VStr s
      | MalformedJSON =>
          JSON.parse s = Normal arg /\
          exists e d, Get arg "event" = Normal e /\ Get arg "data" = Normal d /\
            (ToBoolean e = false \/ ToBoolean d = false \/ typeof_string e = false)
      | UnrecognisedEvent =>
          exists json e d key,
            JSON.parse s = Normal json /\
            Get json "event" = Normal e /\ Get json "data" = Normal d /\
            arg = VObj [("event", e); ("payload", d)] /\
            ToPropertyKey e = Normal key /\
            validators this !! key = None /\ key ∉ Object_prototype_names
      | InvalidPayload =>
          exists json k d z,
            JSON.parse s = Normal json /\
            Get json "event" = Normal (VStr k) /\ Get json "data" = Normal d /\
            arg = VObj [("event", VStr k); ("payload", d)] /\
            validators this !! k = Some z /\ parse z d = Throw ZodError
      end
  | _ => True
  end.

(** What a handler call of the receiver on the text [s] rests on. *)
Definition dispatch_justified (this : WsSchema) (on : gmap string (option callback))
    (s : string) (c : call) : Prop :=
  match c with
  | Handle k d =>
      exists json z h,
        JSON.parse s = Normal json /\
        Get json "event" = Normal (VStr k) /\ Get json "data" = Normal d /\
        validators this !! k = Some z /\ on !! k = Some (Some h) /\
        (parse z d = Throw ZodError \/ exists v, parse z d = Normal v)
  | _ => True
  end.

(** ** The receiver as first written

    [receiver(on)] of the first [WsSchema] class of src/WsSchema.ts: one
    shape test that returns early, then the validator, then the handler,
    all inside a [try] whose [catch] swallows every error and, where a
    global [window] exists, logs through [console.error]. *)
Module Legacy.

(** What this receiver does to the outside: calls of [call], and calls of
    [console.error]. *)
Inductive effect : Type :=
| Outside (c : call)
| ConsoleError (arguments : list value).

Definition L (A : Type) : Type := (list effect * completion A)%type.

Definition ret {A} (a : A) : L A := ([], Normal a).

Definition bind {A B} (m : L A) (f : A -> L B) : L B :=
  match m with
  | (t, Normal a) => let (t', r) := f a in ((t ++ t')%list, r)
  | (t, Throw e) => (t, Throw e)
  end.

Definition throw {A} (e : exn) : L A := ([], Throw e).

Definition lift {A} (c : completion A) : L A := ([], c).

Definition perform (c : effect) : L unit := ([c], Normal tt).

Definition try_catch {A} (m : L A) (handler : exn -> L A) : L A :=
  match m with
  | (t, Throw e) => let (t', r) := handler e in ((t ++ t')%list, r)
  | (t, Normal a) => (t, Normal a)
  end.

Declare Scope legacy_scope.
Delimit Scope legacy_scope with legacy.
Notation "x <- m ;; k" := (bind m (fun x => k))
  (at level 100, m at next level, right associativity) : legacy_scope.
Notation "m ;; k" := (bind m (fun _ => k))
  (at level 100, right associativity) : legacy_scope.
#[local] Open Scope legacy_scope.

Definition trace {A} (m : L A) : list effect := fst m.
Definition outcome {A} (m : L A) : completion A := snd m.

(** [f?.(d)] for the handler [f] of the event [key]. *)
Definition call_handler (key : string) (f : option callback) (d : value) : L value :=
  match f with
  | Some h => perform (Outside (Handle key d)) ;; lift (h d)
  | None => ret VUndefined
  end.

(** The first argument of [console.error]. *)
Definition console_message : string := "received malform event payload on ws event".

(** [window] tells whether [typeof window !== "undefined"]. *)
Definition receiver (this : WsSchema) (on : gmap string (option callback))
    (window : bool) (incomingMessageString : string) : L value :=
  try_catch
    ((* const json = JSON.parse(incomingMessageString); *)
     json <- lift (JSON.parse incomingMessageString) ;;
     (* if (!json.event || !json.data || typeof json.event !== "string" ||
            !Object.keys(on).includes(json.event)) return; *)
     e <- lift (Get json "event") ;;
     if negb (ToBoolean e) then ret VUndefined else
     d <- lift (Get json "data") ;;
     if negb (ToBoolean d) then ret VUndefined else
     e <- lift (Get json "event") ;;
     if negb (typeof_string e) then ret VUndefined else
     e <- lift (Get json "event") ;;
     if negb (includes (Object_keys on) e) then ret VUndefined else
     (* this.validators[json.event]!.parse(json.data); *)
     e <- lift (Get json "event") ;;
     key <- lift (ToPropertyKey e) ;;
     match validators_at this key with
     | Validator z =>
         d <- lift (Get json "data") ;;
         perform (Outside (Validate key d)) ;;
         lift (parse z d)
     | Inherited | Undefined => throw TypeError
     end ;;
     (* on[json.event]?.(json.data); *)
     e <- lift (Get json "event") ;;
     key <- lift (ToPropertyKey e) ;;
     d <- lift (Get json "data") ;;
     call_handler key (default None (on !! key)) d ;;
     ret VUndefined)
    (* catch (e) {
         if (typeof window !== "undefined")
           console.error("received malform event payload on ws event", incomingMessageString);
         return;
       } *)
    (fun _ =>
       (if window
        then perform (ConsoleError [VStr console_message; VStr incomingMessageString])
        else ret tt) ;;
       ret VUndefined).

(** The calls [console.error] of a trace, and its other calls. *)
Fixpoint logged (t : list effect) : list (list value) :=
  match t with
  | [] => []
  | ConsoleError arguments :: r => arguments :: logged r
  | Outside _ :: r => logged r
  end.

Fixpoint outside (t : list effect) : list call :=
  match t with
  | [] => []
  | Outside c :: r => c :: outside r
  | ConsoleError _ :: r => outside r
  end.

End Legacy.

(** The body of the [try] of [Legacy.receiver], once the text is decoded and
    its members are read, and its [catch]. *)
Definition Legacy_body (this : WsSchema) (on : gmap string (option callback))
    (e d : value) (key : string) : Legacy.L value :=
  if negb (ToBoolean e) then Legacy.ret VUndefined else
  if negb (ToBoolean d) then Legacy.ret VUndefined else
  if negb (typeof_string e) then Legacy.ret VUndefined else
  if negb (includes (Object_keys on) e) then Legacy.ret VUndefined else
  Legacy.bind
    (match validators_at this key with
     | Validator z =>
         Legacy.bind (Legacy.perform (Legacy.Outside (Validate key d)))
           (fun _ => Legacy.lift (parse z d))
     | Inherited | Undefined => Legacy.throw TypeError
     end)
    (fun _ =>
       Legacy.bind (Legacy.call_handler key (default None (on !! key)) d)
         (fun _ => Legacy.ret VUndefined)).

Definition Legacy_catch (window : bool) (s : string) : Legacy.L value :=
  Legacy.bind
    (if window
     then Legacy.perform (Legacy.ConsoleError [VStr Legacy.console_message; VStr s])
     else Legacy.ret tt)
    (fun _ => Legacy.ret VUndefined).

(** The calls of the [catch]: one [console.error] where [window] exists. *)
Definition console_calls (window : bool) (s : string) : list Legacy.effect :=
  if window then [Legacy.ConsoleError [VStr Legacy.console_message; VStr s]] else [].

(** ** Reading back what [JSON.stringify] wrote *)

(** The lexer on a piece of text, without the end of input. *)
Fixpoint lex_run (st : JSON.lexstate) (text : string)
  : option (JSON.lexstate * list JSON.token) :=
  match text with
  | EmptyString => Some (st, [])
  | String c r =>
      match JSON.lex_step st c with
      | None => None
      | Some (st', ts) =>
          match lex_run st' r with
          | None => None
          | Some (st'', ts') => Some (st'', (ts ++ ts')%list)
          end
      end
  end.

(** How the lexer holds a character that [JSON.quote] wrote: a control
    character without a short escape comes back as the code unit of its
    [\u00XX] escape, any other character as itself. *)
Definition piece_of (c : ascii) : JSON.piece :=
  let n := code c in
  if ((n <? 32) && negb ((n =? 8) || (n =? 9) || (n =? 10) || (n =? 12) || (n =? 13)))%N
  then JSON.Unit n else JSON.Raw c.

(** Lists of tokens separated by commas. *)
Fixpoint comma_separated (l : list (list JSON.token)) : list JSON.token :=
  match l with
  | [] => []
  | [x] => x
  | x :: r => (x ++ JSON.TComma :: comma_separated r)%list
  end.

(** The tokens of the JSON text of a value. *)
Fixpoint tokens_of (v : value) : list JSON.token :=
  match v with
  | VUndefined => []
  | VNull => [JSON.TNull]
  | VBool true => [JSON.TTrue]
  | VBool false => [JSON.TFalse]
  | VNum m e => [JSON.TNumber m e]
  | VStr s => [JSON.TString s]
  | VArr items =>
      (JSON.TLBracket :: comma_separated (map tokens_of items) ++ [JSON.TRBracket])%list
  | VObj props =>
      (JSON.TLBrace ::
         comma_separated
           (map (fun kv => JSON.TString (fst kv) :: JSON.TColon :: tokens_of (snd kv)) props)
         ++ [JSON.TRBrace])%list
  end.

(** An integer that [Number::toString] writes with all its digits: the
    decimal [m * 10^e] with [m] free of trailing zeros and of at most 15
    digits (so that the double nearest to it prints as it), [e] not
    negative, and at most 21 digits in all. *)
Definition plain_integer (m e : Z) : bool :=
  if m =? 0 then e =? 0
  else negb (m mod 10 =? 0) && (0 <=? e)
       && (Z.of_nat (String.length (digits_of_N (Z.to_N (Z.abs m)))) + e <=? 21)
       && (Z.of_nat (String.length (digits_of_N (Z.to_N (Z.abs m)))) <=? 15).

(** A key with a character that is not a digit.  (An object lists the keys
    that are array indices first and in ascending order, whatever the order
    they were set in; the other keys come in the order they were set, which
    is the order of the association list.) *)
Definition named (k : string) : bool :=
  existsb (fun c => negb (JSON.is_digit c)) (chars_of_string k).

(** The values [JSON.parse] gives back as they were written: [null],
    booleans, strings, integers written with all their digits, and arrays
    and objects of such values, an object naming no key twice and no key
    that is a number. *)
Fixpoint plain (v : value) : bool :=
  match v with
  | VUndefined => false
  | VNull | VBool _ | VStr _ => true
  | VNum m e => plain_integer m e
  | VArr items => forallb plain items
  | VObj props =>
      forallb (fun kv => plain (snd kv)) props
      && forallb (fun kv => named (fst kv)) props
      && bool_decide (NoDup (map fst props))
  end.

(** The text ends here, or goes on with a comma or a closing bracket or
    brace. *)
Definition delimited (tail : string) : Prop :=
  match tail with
  | EmptyString => True
  | String c _ => c = ","%char \/ c = "]"%char \/ c = "}"%char
  end.

(** The digits of a decimal numeral, first digit first. *)
Fixpoint uint_digits (d : Decimal.uint) : list N :=
  match d with
  | Decimal.Nil => []
  | Decimal.D0 d => 0%N :: uint_digits d
  | Decimal.D1 d => 1%N :: uint_digits d
  | Decimal.D2 d => 2%N :: uint_digits d
  | Decimal.D3 d => 3%N :: uint_digits d
  | Decimal.D4 d => 4%N :: uint_digits d
  | Decimal.D5 d => 5%N :: uint_digits d
  | Decimal.D6 d => 6%N :: uint_digits d
  | Decimal.D7 d => 7%N :: uint_digits d
  | Decimal.D8 d => 8%N :: uint_digits d
  | Decimal.D9 d => 9%N :: uint_digits d
  end.

(** The number read so far, with other digits. *)
Definition with_digits (a : JSON.numacc) (ds : list N) : JSON.numacc :=
  {| JSON.negative := JSON.negative a; JSON.digits := ds; JSON.scale := JSON.scale a;
     JSON.exp_negative := JSON.exp_negative a; JSON.exponent := JSON.exponent a |}.

(** A text is read as the tokens [toks], whatever delimited text follows. *)
Definition lexes (text : string) (toks : list JSON.token) : Prop :=
  forall tail ts, delimited tail -> JSON.lex JSON.LDefault tail = Some ts ->
    JSON.lex JSON.LDefault (text ++ tail) = Some (toks ++ ts)%list.

(** A numeral that starts with a digit other than zero. *)
Definition leading (d : Decimal.uint) : Prop :=
  match d with
  | Decimal.Nil | Decimal.D0 _ => False
  | _ => True
  end.

(** The texts [JSON.serialize] joins for the elements of an array and for
    the members of an object. *)
Definition element_texts (items : list value) : list string :=
  map (fun x => default "null" (JSON.serialize x)) items.

Fixpoint member_texts (props : list (string * value)) : list string :=
  match props with
  | [] => []
  | (k, x) :: r =>
      match JSON.serialize x with
      | None => member_texts r
      | Some t => (JSON.quote k ++ ":" ++ t) :: member_texts r
      end
  end.

(** A value that is [plain] has a JSON text that the lexer reads as the
    tokens of the value. *)
Definition lexes_back (v : value) : Prop :=
  plain v = true ->
  exists t, JSON.serialize v = Some t /\ lexes t (tokens_of v).

(** The parser, given the tokens of the value, goes on as after the value. *)
Definition parses_back (v : value) : Prop :=
  plain v = true ->
  forall stack rest,
    JSON.parse_tokens (JSON.PValue stack) (tokens_of v ++ rest)
    = JSON.parse_tokens (JSON.after_value v stack) rest.

(** * Properties *)

(** ** Laws of the monad *)

Section Computations.
Context {A B : Type}.
Implicit Types (m : M A) (f : A -> M B).

Lemma trace_bind m f :
  trace (bind m f) =
  match outcome m with
  | Normal a => (trace m ++ trace (f a))%list
  | Throw _ => trace m
  end.
Proof.
  destruct m as [t [a|e]]; simpl; [|reflexivity].
  destruct (f a); reflexivity.
Qed.

Lemma outcome_bind m f :
  outcome (bind m f) =
  match outcome m with
  | Normal a => outcome (f a)
  | Throw e => Throw e
  end.
Proof.
  destruct m as [t [a|e]]; simpl; [|reflexivity].
  destruct (f a); reflexivity.
Qed.

Lemma trace_try_catch m (h : exn -> M A) :
  trace (try_catch m h) =
  match outcome m with
  | Normal _ => trace m
  | Throw e => (trace m ++ trace (h e))%list
  end.
Proof.
  destruct m as [t [a|e]]; simpl; [reflexivity|].
  destruct (h e); reflexivity.
Qed.

Lemma outcome_try_catch m (h : exn -> M A) :
  outcome (try_catch m h) =
  match outcome m with
  | Normal a => Normal a
  | Throw e => outcome (h e)
  end.
Proof.
  destruct m as [t [a|e]]; simpl; [reflexivity|].
  destruct (h e); reflexivity.
Qed.

Lemma all_calls_bind (Q : call -> Prop) m f :
  all_calls Q m ->
  (forall a, outcome m = Normal a -> all_calls Q (f a)) ->
  all_calls Q (bind m f).
Proof.
  unfold all_calls. intros Hm Hf. rewrite trace_bind.
  destruct (outcome m) as [a|e] eqn:E; [|exact Hm].
  apply Forall_app. split; [exact Hm | apply Hf; reflexivity].
Qed.

Lemma all_calls_try_catch (Q : call -> Prop) m (h : exn -> M A) :
  all_calls Q m ->
  (forall e, outcome m = Throw e -> all_calls Q (h e)) ->
  all_calls Q (try_catch m h).
Proof.
  unfold all_calls. intros Hm Hh. rewrite trace_try_catch.
  destruct (outcome m) as [a|e] eqn:E; [exact Hm|].
  apply Forall_app. split; [exact Hm | apply Hh; reflexivity].
Qed.

Lemma returns_bind (P : B -> Prop) m f :
  (forall a, returns P (f a)) -> returns P (bind m f).
Proof.
  unfold returns. intros Hf b. rewrite outcome_bind.
  destruct (outcome m) as [a|e]; [apply Hf | discriminate].
Qed.

Lemma returns_try_catch (P : A -> Prop) m (h : exn -> M A) :
  returns P m -> (forall e, returns P (h e)) -> returns P (try_catch m h).
Proof.
  unfold returns. intros Hm Hh a. rewrite outcome_try_catch.
  destruct (outcome m) as [a'|e]; [apply Hm | apply Hh].
Qed.
End Computations.

Lemma all_calls_ret {A} (Q : call -> Prop) (a : A) : all_calls Q (ret a).
Proof. constructor. Qed.

Lemma all_calls_lift {A} (Q : call -> Prop) (c : completion A) : all_calls Q (lift c).
Proof. constructor. Qed.

Lemma all_calls_throw {A} (Q : call -> Prop) (e : exn) : all_calls Q (@throw A e).
Proof. constructor. Qed.

Lemma all_calls_perform (Q : call -> Prop) (c : call) : Q c -> all_calls Q (perform c).
Proof. intros H. constructor; [exact H | constructor]. Qed.

Lemma all_calls_optional_call (Q : call -> Prop) c f arg :
  Q c -> all_calls Q (optional_call c f arg).
Proof.
  intros H. destruct f as [f|]; unfold optional_call; [|apply all_calls_ret].
  apply all_calls_bind; [apply all_calls_perform, H | intros; apply all_calls_lift].
Qed.

Lemma all_calls_when (Q : call -> Prop) b m :
  all_calls Q m -> all_calls Q (when b m).
Proof. intros H. destruct b; simpl; [exact H | apply all_calls_ret]. Qed.

Lemma outcome_lift {A} (c : completion A) : outcome (lift c) = c.
Proof. reflexivity. Qed.

Lemma returns_ret {A} (P : A -> Prop) (a : A) : P a -> returns P (ret a).
Proof. intros H a' E. injection E as <-. exact H. Qed.

Lemma returns_throw {A} (P : A -> Prop) (e : exn) : returns P (@throw A e).
Proof. intros a E. discriminate E. Qed.

(** ** The [Set] of sockets *)

Lemma Set_add_first (x : WebSocket) : Set_add [] x = [x].
Proof.
  unfold Set_add, Set_has. rewrite bool_decide_eq_false_2 by apply not_elem_of_nil.
  reflexivity.
Qed.

Lemma fold_Set_add_filter (l s : list WebSocket) :
  fold_left Set_add l s
  = (s ++ filter (fun y => reference y ∉ map reference s) (new_Set l))%list.
Proof.
  unfold new_Set. revert s. induction l as [|x l IH]; intros s.
  - simpl. rewrite app_nil_r. reflexivity.
  - cbn [fold_left]. rewrite (IH (Set_add [] x)), Set_add_first.
    rewrite IH. unfold Set_add, Set_has. case_bool_decide as Hx.
    + cbn [app]. rewrite filter_cons_False by (intros H; apply H, Hx).
      rewrite list_filter_filter. f_equal. apply list_filter_iff.
      intros y. cbn [map]. rewrite list_elem_of_singleton. split; [|tauto].
      intros Hy. split; [exact Hy|]. intros Heq. apply Hy. rewrite Heq. exact Hx.
    + cbn [app]. rewrite filter_cons_True by exact Hx.
      rewrite <- app_assoc. cbn [app]. f_equal. f_equal.
      rewrite list_filter_filter. apply list_filter_iff.
      intros y. rewrite map_app. cbn [map].
      rewrite elem_of_app, !list_elem_of_singleton. tauto.
Qed.

(** The first socket stays first; the others follow without its further
    occurrences. *)
Lemma new_Set_cons (x : WebSocket) (l : list WebSocket) :
  new_Set (x :: l) = x :: filter (fun y => reference y <> reference x) (new_Set l).
Proof.
  unfold new_Set at 1. cbn [fold_left]. rewrite Set_add_first.
  rewrite fold_Set_add_filter. cbn [app]. f_equal. apply list_filter_iff.
  intros y. cbn [map]. rewrite list_elem_of_singleton. tauto.
Qed.







(** ** emit *)

Lemma forEach_send (text : value) (sockets : list WebSocket) :
  forEach sockets (fun socket => perform (Send socket text) ;; lift (socket_send socket text))
  = (map (fun socket => Send socket text) (attempted text sockets),
     sends_outcome text sockets).
Proof.
  induction sockets as [|x r IH]; cbn [forEach attempted sends_outcome]; [reflexivity|].
  rewrite IH. unfold perform, lift, bind. cbn [app].
  destruct (socket_send x text); reflexivity.
Qed.

Lemma WsSchema_emit_eq (eventID : string) (d : value) (r : recipients) :
  WsSchema_emit eventID d r =
  let text := JSON.stringify (envelope eventID d) in
  let sockets := new_Set (match r with Sockets l => l | Socket ws => [ws] end) in
  (map (fun socket => Send socket text) (attempted text sockets),
   sends_outcome text sockets).
Proof. unfold WsSchema_emit. apply forEach_send. Qed.







(** ** The decoder on sample texts *)

Example parse_envelope :
  JSON.parse hi_text = Normal (envelope "message" (VStr "hi")).
Proof. reflexivity. Qed.

Example parse_whitespace_and_numbers :
  JSON.parse " [ 1 , -2.50 , 1e3 , 0.0 ] "
  = Normal (VArr [VNum 1 0; VNum (-25) (-1); VNum 1 3; VNum 0 0]).
Proof. reflexivity. Qed.

Example parse_escapes :
  JSON.parse (dq "'A\né😀'") = JSON.parse (dq "'A\u000aé😀'").
Proof. reflexivity. Qed.

Example parse_duplicate_key :
  JSON.parse (dq "{'a':1,'b':2,'a':3}") = Normal (VObj [("a", VNum 3 0); ("b", VNum 2 0)]).
Proof. reflexivity. Qed.

Example parse_rejects :
  Forall (fun text => JSON.parse text = Throw SyntaxError)
    [ "not json"; EmptyString; "01"; "1."; "-"; "[1,]"; "{,}"; "[1 2]"; "tru"; "nulll";
      dq "{'a' 1}"; dq "{'a':1,}"; dq "'open"; dq "'\q'"; "+1"; ".5" ].
Proof. repeat constructor. Qed.

Example stringify_nested :
  JSON.stringify (VObj [("a", VArr [VUndefined; VNum 15 (-1); VBool true]);
                        ("b", VUndefined); ("c", VStr (dq "x'y"))])
  = VStr (dq "{'a':[null,1.5,true],'c':'x\'y'}").
Proof. reflexivity. Qed.

(** ** The receiver on sample texts *)

(** A text that is not JSON is reported through [onPayloadIsNonJSON]
    only. *)
Example receiver_not_json :
  receiver chat {[ "message" := Some quiet ]} all_hooks "not json"
  = ([Report PayloadIsNonJSON (VStr "not json")], Normal VUndefined).
Proof. reflexivity. Qed.

(** An event outside the schema is reported through [onUnrecognisedEvent]
    and reaches no handler. *)
Example receiver_unknown_event :
  receiver chat {[ "message" := Some quiet ]} all_hooks (dq "{'event':'bye','data':1}")
  = ([Report UnrecognisedEvent (VObj [("event", VStr "bye"); ("payload", VNum 1 0)])],
     Normal VUndefined).
Proof. reflexivity. Qed.

(** An event of the schema without a handler is passed over in silence. *)
Example receiver_no_handler :
  receiver demo {[ "message" := Some quiet ]} all_hooks
    (dq "{'event':'heartbeat','data':1}")
  = ([], Normal VUndefined).
Proof. reflexivity. Qed.

(** Without hooks the failures are silent. *)
Example receiver_no_hooks :
  receiver chat {[ "message" := Some quiet ]} no_hooks "not json" = ([], Normal VUndefined) /\
  receiver chat {[ "message" := Some quiet ]} no_hooks (dq "{'event':'bye','data':1}")
  = ([], Normal VUndefined).
Proof. split; reflexivity. Qed.

(** A handler that throws is not shielded: its error leaves the receiver. *)
Example receiver_handler_throws :
  receiver chat {[ "message" := Some (fun _ => Throw (Error "boom")) ]} all_hooks hi_text
  = ([Validate "message" (VStr "hi"); Handle "message" (VStr "hi")], Throw (Error "boom")).
Proof. reflexivity. Qed.

(** ** Inbound claims the code does not meet *)

(** C1 (validator gating) fails on the code.  Schema [{message: z.string()}],
    a handler for [message], every hook set: on the text
    [{"event":"message","data":5}] the validator rejects the payload [5], the
    [onInvalidPayload] hook is called once with the event name and the raw
    payload, and then the handler is called all the same, with the rejected
    payload: after the hook the receiver does not return. *)
Theorem C1_handler_called_with_rejected_payload :
  parse z.string (VNum 5 0) = Throw ZodError /\
  receiver chat {[ "message" := Some quiet ]} all_hooks
    (dq "{'event':'message','data':5}")
  = ([ Validate "message" (VNum 5 0);
       Report InvalidPayload (VObj [("event", VStr "message"); ("payload", VNum 5 0)]);
       Handle "message" (VNum 5 0) ],
     Normal VUndefined).
Proof. split; reflexivity. Qed.

(** C2 (exception containment) fails on the code.  The text [null] is valid
    JSON and decodes to [null]; reading [json.event] then throws a
    [TypeError], which the outer [catch] throws again since it is no
    [SyntaxError].  Whatever the schema, the handlers and the hooks, the
    receiver applied to [null] calls nothing and throws. *)
Theorem C2_null_message_throws (this : WsSchema) (on : gmap string (option callback))
    (config : Config) :
  JSON.parse "null" = Normal VNull /\
  receiver this on config "null" = ([], Throw TypeError).
Proof. split; reflexivity. Qed.

(** C3 (terminal failure categories) fails on the code.  Schema
    [{message: z.string()}], a handler for [message], every hook set: the text
    [{"event":"message"}] has no [data] field and is reported through
    [onMalformedJSON], yet processing goes on: the validator is consulted,
    [onInvalidPayload] is called, and the handler is called with
    [undefined]. *)
Theorem C3_malformed_envelope_not_terminal :
  receiver chat {[ "message" := Some quiet ]} all_hooks (dq "{'event':'message'}")
  = ([ Report MalformedJSON (VObj [("event", VStr "message")]);
       Validate "message" VUndefined;
       Report InvalidPayload (VObj [("event", VStr "message"); ("payload", VUndefined)]);
       Handle "message" VUndefined ],
     Normal VUndefined).
Proof. reflexivity. Qed.

(** C4 (presence, not truthiness) fails on the code.  Schema with
    [heartbeat: z.number()], a handler for [heartbeat], every hook set: the
    text [{"event":"heartbeat","data":0}] has a string [event] and a [data]
    field that the validator accepts, and is nonetheless reported through
    [onMalformedJSON], because the shape check tests [!json.data].  The same
    holds for the payloads [false] and the empty string.  (The handler is
    then called, since the report is not terminal.) *)
Theorem C4_falsy_data_reported_malformed :
  parse z.number (VNum 0 0) = Normal (VNum 0 0) /\
  receiver demo {[ "heartbeat" := Some quiet ]} all_hooks
    (dq "{'event':'heartbeat','data':0}")
  = ([ Report MalformedJSON (envelope "heartbeat" (VNum 0 0));
       Validate "heartbeat" (VNum 0 0);
       Handle "heartbeat" (VNum 0 0) ],
     Normal VUndefined) /\
  reported (trace (receiver demo {[ "typing" := Some quiet ]} all_hooks
                     (dq "{'event':'typing','data':false}"))) = [MalformedJSON] /\
  reported (trace (receiver demo {[ "message" := Some quiet ]} all_hooks
                     (dq "{'event':'message','data':''}"))) = [MalformedJSON].
Proof. repeat split; reflexivity. Qed.

(** C5 (at most one failure category per message) fails on the code.  With
    every hook set, the text [{}] makes one call of the receiver invoke two
    hooks, [onMalformedJSON] and then [onUnrecognisedEvent]; the text
    [{"event":"message"}] invokes [onMalformedJSON] and then
    [onInvalidPayload]. *)
Theorem C5_two_hooks_on_one_message :
  reported (trace (receiver chat {[ "message" := Some quiet ]} all_hooks "{}"))
  = [MalformedJSON; UnrecognisedEvent] /\
  reported (trace (receiver chat {[ "message" := Some quiet ]} all_hooks
                     (dq "{'event':'message'}")))
  = [MalformedJSON; InvalidPayload].
Proof. split; reflexivity. Qed.

(** ** Round trip *)

(** C6.  For the schema [{message: z.string()}],
    [send("message").data("hi").stringify()] returns exactly the text
    [{"event":"message","data":"hi"}], calling nothing; and a receiver built
    with a handler [h] for [message], whatever [h] and the hooks are, applied
    to that text calls [h] exactly once, with ["hi"], and calls no other
    handler. *)
Theorem C6_round_trip (h : callback) (config : Config) :
  (b <- send chat "message" ;; m <- data b (VStr "hi") ;; stringify m tt)
  = ([], Normal (VStr hi_text)) /\
  handled (trace (receiver chat {[ "message" := Some h ]} config hi_text))
  = [("message", VStr "hi")].
Proof.
  split; [reflexivity|].
  destruct config as [[[p m u i]|]]; vm_compute;
    destruct (h (VStr "hi")) as [v|[]]; try reflexivity;
    destruct p as [p|]; try reflexivity;
    destruct (p _); reflexivity.
Qed.

(** ** Outbound claims *)

Lemma bind_ret {A B} (a : A) (f : A -> M B) : bind (ret a) f = f a.
Proof. unfold bind, ret. destruct (f a). reflexivity. Qed.

Lemma sends_outcome_Normal (text : value) (s : list WebSocket) (v : value) :
  sends_outcome text s = Normal v -> v = VUndefined.
Proof.
  induction s as [|x s IH]; cbn [sends_outcome]; [congruence|].
  destruct (socket_send x text); [exact IH | discriminate].
Qed.

(** [emit()] of [sendDataTo]: [WsSchema.emit(event, data, to)], whose result
    is dropped. *)
Lemma sendDataTo_emit (this : WsSchema) (event : string) (d : value) (r : recipients) :
  emit (sendDataTo this event d r) tt
  = let text := JSON.stringify (envelope event d) in
    let sockets := new_Set (match r with Sockets l => l | Socket ws => [ws] end) in
    (map (fun socket => Send socket text) (attempted text sockets),
     sends_outcome text sockets).
Proof.
  cbn [sendDataTo emit]. rewrite WsSchema_emit_eq. cbv zeta.
  destruct (sends_outcome _ _) as [v|e] eqn:Hout; cbn [bind ret]; [|reflexivity].
  rewrite app_nil_r, (sends_outcome_Normal _ _ _ Hout). reflexivity.
Qed.

(** The whole chain [send(event).data(d).to(r).emit()]. *)
Lemma emit_chain (this : WsSchema) (event : string) (d : value) (r : recipients) :
  (b <- send this event ;; m <- data b d ;; e <- to m r ;; emit e tt)
  = let text := JSON.stringify (envelope event d) in
    let sockets := new_Set (match r with Sockets l => l | Socket ws => [ws] end) in
    (map (fun socket => Send socket text) (attempted text sockets),
     sends_outcome text sockets).
Proof.
  unfold send. rewrite bind_ret. cbn [data]. rewrite bind_ret.
  cbn [sendData to]. rewrite bind_ret. apply sendDataTo_emit.
Qed.






(** C8.  For every event and payload, [send(event)], [.data(d)],
    [.object()], [.stringify()] and [.to(r)] return without calling anything
    outside: no validator, no socket.  [.emit()] calls nothing but the [send]
    of sockets, so no step of the outbound builder calls a validator, and
    [.emit()] is the one step that writes: bound to one socket it makes one
    [send] there. *)
Theorem C8_send_path_pure (this : WsSchema) (event : string) (d : value) :
  exists b m,
    send this event = ([], Normal b) /\
    data b d = ([], Normal m) /\
    object m tt = ([], Normal (envelope event d)) /\
    stringify m tt = ([], Normal (JSON.stringify (envelope event d))) /\
    (forall r, exists e,
        to m r = ([], Normal e) /\
        Forall is_send (trace (emit e tt)) /\
        validated (trace (emit e tt)) = []) /\
    (forall ws, exists e,
        to m (Socket ws) = ([], Normal e) /\
        trace (emit e tt) = [Send ws (JSON.stringify (envelope event d))]).
Proof.
  eexists. eexists. split; [reflexivity|]. split; [reflexivity|].
  split; [reflexivity|]. split; [reflexivity|]. split.
  - intros r. eexists. split; [reflexivity|]. rewrite sendDataTo_emit.
    cbv zeta. cbn [trace fst].
    generalize (attempted (JSON.stringify (envelope event d))
                  (new_Set (match r with Sockets l => l | Socket ws => [ws] end))).
    intros s. induction s as [|x s [IH1 IH2]]; simpl; split;
      try constructor; try exact I; assumption.
  - intros ws. eexists. split; [reflexivity|]. rewrite sendDataTo_emit.
    cbv zeta. cbn [trace fst]. rewrite new_Set_cons.
    change (new_Set []) with (@nil WebSocket). rewrite filter_nil.
    cbn [attempted map]. destruct (socket_send ws _); reflexivity.
Qed.

(** ** What the receiver returns *)

Ltac returns_step :=
  first
    [ apply returns_ret; reflexivity
    | apply returns_throw
    | apply returns_bind; intros ?
    | apply returns_try_catch; [|intros ?]
    | match goal with
      | |- returns _ (if ?b then _ else _) => destruct b
      | |- returns _ (match ?x with _ => _ end) => destruct x
      end ].

Lemma receiver_returns_undefined (this : WsSchema) (on : gmap string (option callback))
    (config : Config) (s : string) :
  returns (fun v => v = VUndefined) (receiver this on config s).
Proof. unfold receiver. repeat returns_step. Qed.

(** C9, as amended.  The callable produced by [receiver] returns no result
    value: on every text on which it returns at all, it returns [undefined],
    whatever happened to the message. *)
Theorem C9_receiver_returns_undefined (this : WsSchema)
    (on : gmap string (option callback)) (config : Config) (s : string) (v : value) :
  outcome (receiver this on config s) = Normal v -> v = VUndefined.
Proof. apply receiver_returns_undefined. Qed.

Lemma C9_receiver_returns_undefined_witness :
  outcome (receiver chat {[ "message" := Some quiet ]} all_hooks hi_text)
  = Normal VUndefined /\ VUndefined = VUndefined.
Proof.
  split; [reflexivity|].
  apply (C9_receiver_returns_undefined chat {[ "message" := Some quiet ]} all_hooks
           hi_text VUndefined).
  reflexivity.
Defined.

(** C9 as stated fails: with the schema [{message: z.string()}], a handler
    for [message] and every hook set, the returned value does not describe
    what happened.  The text [{"event":"message","data":"hi"}] is dispatched
    and calls no hook, the text [not json] calls [onPayloadIsNonJSON], and the
    receiver returns the same [undefined] on both. *)
Lemma C9_counterexample :
  ~ result_describes chat {[ "message" := Some quiet ]} all_hooks.
Proof.
  intros [describe H].
  pose proof (H hi_text) as H1. pose proof (H "not json") as H2.
  vm_compute in H1, H2. rewrite H1 in H2. discriminate H2.
Qed.

(** ** What the handler is given *)

Ltac no_handler :=
  repeat first
    [ apply all_calls_ret | apply all_calls_lift | apply all_calls_throw
    | apply all_calls_perform; exact I
    | apply all_calls_optional_call; exact I
    | apply all_calls_when
    | apply all_calls_bind; [|intros ? _]
    | apply all_calls_try_catch; [|intros ? _]
    | match goal with
      | |- all_calls _ (if ?b then _ else _) => destruct b
      | |- all_calls _ (match ?x with _ => _ end) => destruct x
      end ].

Lemma includes_true (keys : list string) (v : value) :
  includes keys v = true -> exists k, v = VStr k.
Proof. destruct v; simpl; try discriminate. eauto. Qed.

Lemma receiver_calls_carry_raw_data (this : WsSchema)
    (on : gmap string (option callback)) (config : Config) (s : string) :
  all_calls (carries_raw_data s) (receiver this on config s).
Proof.
  unfold receiver. apply all_calls_try_catch; [|intros err _; unfold received; no_handler].
  apply all_calls_bind; [no_handler|]. intros json Hjson. rewrite outcome_lift in Hjson.
  apply all_calls_bind; [no_handler|]. intros malformed _.
  apply all_calls_bind; [no_handler|]. intros _ _.
  apply all_calls_bind; [no_handler|]. intros e _.
  apply all_calls_bind; [no_handler|]. intros key _.
  apply all_calls_bind; [unfold received; no_handler|]. intros _ _.
  apply all_calls_bind; [no_handler|]. intros e0 He0. rewrite outcome_lift in He0.
  destruct (negb (includes (Object_keys on) e0)) eqn:Hinc; [no_handler|].
  apply negb_false_iff, includes_true in Hinc as [k ->].
  apply all_calls_bind; [unfold received; no_handler|]. intros _ _.
  apply all_calls_bind; [no_handler|]. intros e1 He1. rewrite outcome_lift in He1.
  apply all_calls_bind; [no_handler|]. intros key1 Hkey1. rewrite outcome_lift in Hkey1.
  apply all_calls_bind; [no_handler|]. intros d Hd. rewrite outcome_lift in Hd.
  apply all_calls_bind; [|intros; no_handler].
  apply all_calls_optional_call. simpl.
  rewrite He0 in He1. injection He1 as <-. simpl in Hkey1. injection Hkey1 as <-.
  exists json. auto.
Qed.

(** C10.  Whenever the receiver calls a handler, for the event [event] with
    the payload [payload], the text decodes to a value whose [event] member
    is [event] and whose [data] member is [payload] itself: the handler is
    given the raw decoded [data], and what the validator's [parse] returned is
    not used. *)
Theorem C10_handler_given_raw_data (this : WsSchema)
    (on : gmap string (option callback)) (config : Config) (s : string)
    (event : string) (payload : value) :
  Handle event payload ∈ trace (receiver this on config s) ->
  exists json, JSON.parse s = Normal json /\
               Get json "event" = Normal (VStr event) /\
               Get json "data" = Normal payload.
Proof.
  intros Hin.
  pose proof (receiver_calls_carry_raw_data this on config s) as Hall.
  unfold all_calls in Hall. rewrite Forall_forall in Hall.
  exact (Hall _ Hin).
Qed.

(** The witness: [status: z.object({})] parses the payload [{"x":1}] to [{}],
    and the handler is given [{"x":1}]. *)
Lemma C10_handler_given_raw_data_witness :
  parse z.object_empty (VObj [("x", VNum 1 0)]) = Normal (VObj []) /\
  exists json, JSON.parse (dq "{'event':'status','data':{'x':1}}") = Normal json /\
               Get json "event" = Normal (VStr "status") /\
               Get json "data" = Normal (VObj [("x", VNum 1 0)]).
Proof.
  split; [reflexivity|].
  apply (C10_handler_given_raw_data demo {[ "status" := Some quiet ]} all_hooks).
  vm_compute. apply list_elem_of_further, list_elem_of_here.
Defined.

(** * Further properties of the code *)

(** ** The receiver *)

Lemma bind_lift_Normal {A B} (a : A) (f : A -> M B) : bind (lift (Normal a)) f = f a.
Proof. apply bind_ret. Qed.

Lemma includes_own {A} (on : gmap string A) (k : string) (x : A) :
  on !! k = Some x -> includes (Object_keys on) (VStr k) = true.
Proof.
  intros H. unfold includes, Object_keys. apply bool_decide_eq_true_2.
  apply list_elem_of_fmap. exists (k, x). split; [reflexivity|].
  apply elem_of_map_to_list, H.
Qed.

Lemma includes_not_own {A} (on : gmap string A) (k : string) :
  on !! k = None -> includes (Object_keys on) (VStr k) = false.
Proof.
  intros H. unfold includes, Object_keys. apply bool_decide_eq_false_2.
  intros Hin. apply list_elem_of_fmap in Hin as [[k' x] [-> Hin]].
  apply elem_of_map_to_list in Hin. simpl in H. congruence.
Qed.

(** The receiver once the text is decoded and its [event] and [data] members are read. *)
Lemma receiver_decoded (this : WsSchema) (on : gmap string (option callback))
    (config : Config) (s : string) (json e d : value) (key : string) :
  JSON.parse s = Normal json ->
  Get json "event" = Normal e ->
  Get json "data" = Normal d ->
  ToPropertyKey e = Normal key ->
  receiver this on config s =
  try_catch
    (malformed <-
       (if negb (ToBoolean e) then ret true
        else if negb (ToBoolean d) then ret true
        else ret (negb (typeof_string e))) ;;
     when malformed
       (optional_call (Report MalformedJSON json)
          (errors_hook config onMalformedJSON) json) ;;
     when (negb (slot_truthy (validators_at this key)))
       (optional_call (Report UnrecognisedEvent (VObj [("event", e); ("payload", d)]))
          (errors_hook config onUnrecognisedEvent) (VObj [("event", e); ("payload", d)])) ;;
     if negb (includes (Object_keys on) e) then ret VUndefined else
     try_catch
       (match validators_at this key with
        | Validator z => perform (Validate key d) ;; lift (parse z d)
        | Inherited | Undefined => throw TypeError
        end)
       (fun err =>
          match err with
          | ZodError =>
              optional_call (Report InvalidPayload (VObj [("event", e); ("payload", d)]))
                (errors_hook config onInvalidPayload) (VObj [("event", e); ("payload", d)])
          | _ => throw err
          end) ;;
     optional_call (Handle key d) (default None (on !! key)) d ;;
     ret VUndefined)
    (fun err =>
       match err with
       | SyntaxError =>
           optional_call (Report PayloadIsNonJSON (VStr s))
             (errors_hook config onPayloadIsNonJSON) (VStr s) ;;
           ret VUndefined
       | _ => throw err
       end).
Proof.
  intros Hs He Hd Hk. unfold receiver, received.
  rewrite Hs, bind_lift_Normal. rewrite !He, !Hd.
  repeat (rewrite bind_lift_Normal; cbv beta).
  rewrite !Hk.
  repeat (rewrite bind_lift_Normal; cbv beta).
  repeat (rewrite bind_ret; cbv beta).
  destruct (validators_at this key); reflexivity.
Qed.

Lemma validators_at_own this k z :
  validators this !! k = Some z -> validators_at this k = Validator z.
Proof. intros H. unfold validators_at. rewrite H. reflexivity. Qed.

Lemma string_nonempty (E : string) : E <> EmptyString -> String.eqb E EmptyString = false.
Proof. intros H. apply String.eqb_neq, H. Qed.

Lemma receiver_accepts (this : WsSchema) (on : gmap string (option callback))
    (config : Config) (s : string) (json : value) (E : string) (P : value)
    (z : ZodType) (v : value) (h : callback) (r : value) :
  JSON.parse s = Normal json -> Get json "event" = Normal (VStr E) -> Get json "data" = Normal P ->
  E <> EmptyString -> ToBoolean P = true -> validators this !! E = Some z -> parse z P = Normal v ->
  on !! E = Some (Some h) -> h P = Normal r ->
  receiver this on config s = ([Validate E P; Handle E P], Normal VUndefined).
Proof.
  intros Hs He Hd HE HP Hz Hv Hh Hr.
  rewrite (receiver_decoded this on config s json (VStr E) P E Hs He Hd eq_refl).
  cbn [ToBoolean typeof_string]. rewrite (string_nonempty E HE), HP.
  rewrite (validators_at_own this E z Hz), (includes_own on E _ Hh), Hh.
  cbn. rewrite Hv. cbn. rewrite Hr. reflexivity.
Qed.



Lemma all_calls_optional_call_set (Q : call -> Prop) c f arg :
  (is_Some f -> Q c) -> all_calls Q (optional_call c f arg).
Proof.
  intros H. destruct f as [f|]; unfold optional_call; [|apply all_calls_ret].
  apply all_calls_bind; [apply all_calls_perform, H; eauto | intros; apply all_calls_lift].
Qed.

Lemma Get_defined (o : value) (n1 n2 : string) (v : value) :
  Get o n1 = Normal v -> exists w, Get o n2 = Normal w.
Proof. destruct o; simpl; intros H; try discriminate; eauto. Qed.

Lemma validators_at_Validator this key z :
  validators_at this key = Validator z -> validators this !! key = Some z.
Proof.
  unfold validators_at. destruct (validators this !! key); [congruence|].
  case_bool_decide; discriminate.
Qed.

Lemma validators_at_Undefined this key :
  validators_at this key = Undefined ->
  validators this !! key = None /\ key ∉ Object_prototype_names.
Proof.
  unfold validators_at. destruct (validators this !! key); [discriminate|].
  case_bool_decide; [discriminate|]. auto.
Qed.

Ltac quiet_calls :=
  repeat first
    [ apply all_calls_ret | apply all_calls_lift | apply all_calls_throw
    | apply all_calls_perform; exact I
    | apply all_calls_bind; [|intros ? _]
    | match goal with
      | |- all_calls _ (if ?b then _ else _) => destruct b
      end ].

Lemma receiver_reports_justified (this : WsSchema) (on : gmap string (option callback))
    (config : Config) (s : string) :
  all_calls (report_justified this config s) (receiver this on config s).
Proof.
  unfold receiver. apply all_calls_try_catch.
  2:{ intros err _. destruct err; try apply all_calls_throw.
      apply all_calls_bind; [|intros; apply all_calls_ret].
      apply all_calls_optional_call_set. intros Hset. split; [exact Hset | reflexivity]. }
  apply all_calls_bind; [quiet_calls|]. intros json Hjson. rewrite outcome_lift in Hjson.
  apply all_calls_bind; [quiet_calls|]. intros malformed Hmal.
  apply all_calls_bind.
  { destruct malformed; [|apply all_calls_ret]. cbn [when].
    apply all_calls_optional_call_set. intros Hset. split; [exact Hset|].
    split; [exact Hjson|].
    rewrite outcome_bind, outcome_lift in Hmal.
    destruct (Get json "event") as [e|] eqn:He; [|discriminate].
    destruct (Get_defined json "event" "data" e He) as [d Hd].
    exists e, d. split; [reflexivity|]. split; [exact Hd|].
    destruct (ToBoolean e) eqn:Te; [|auto]. cbn [negb] in Hmal.
    rewrite outcome_bind, outcome_lift, Hd in Hmal.
    destruct (ToBoolean d) eqn:Td; [|auto]. cbn [negb] in Hmal.
    rewrite outcome_bind, outcome_lift in Hmal. cbn in Hmal.
    right. right. destruct (typeof_string e); [discriminate | reflexivity]. }
  intros _ _. apply all_calls_bind; [quiet_calls|]. intros e He. rewrite outcome_lift in He.
  apply all_calls_bind; [quiet_calls|]. intros key Hkey. rewrite outcome_lift in Hkey.
  destruct (Get_defined json "event" "data" e He) as [d Hd].
  apply all_calls_bind.
  { destruct (validators_at this key) eqn:Hslot; try apply all_calls_ret. cbn [slot_truthy negb when].
    unfold received. rewrite He, Hd, !bind_lift_Normal, bind_ret.
    apply all_calls_optional_call_set. intros Hset. split; [exact Hset|].
    apply validators_at_Undefined in Hslot as [Hnone Hproto].
    exists json, e, d, key. auto 10. }
  intros _ _. apply all_calls_bind; [quiet_calls|]. intros e0 He0. rewrite outcome_lift in He0.
  rewrite He in He0. injection He0 as <-.
  destruct (negb (includes (Object_keys on) e)) eqn:Hinc; [apply all_calls_ret|].
  apply negb_false_iff, includes_true in Hinc as [k ->].
  cbn in Hkey. injection Hkey as <-.
  apply all_calls_bind.
  2:{ intros _ _.
      apply all_calls_bind; [quiet_calls|]; intros e1 _.
      apply all_calls_bind; [quiet_calls|]; intros k1 _.
      apply all_calls_bind; [quiet_calls|]; intros d1 _.
      apply all_calls_bind; [|intros; apply all_calls_ret].
      apply all_calls_optional_call_set. intros _. exact I. }
  rewrite He, bind_lift_Normal. cbn [ToPropertyKey ToString]. rewrite bind_lift_Normal.
  apply all_calls_try_catch.
  { destruct (validators_at this k); [|apply all_calls_throw..].
    rewrite Hd, bind_lift_Normal. apply all_calls_bind; [apply all_calls_perform; exact I|].
    intros; apply all_calls_lift. }
  intros err Herr. destruct err; try apply all_calls_throw.
  unfold received. rewrite He, Hd, !bind_lift_Normal, bind_ret.
  apply all_calls_optional_call_set. intros Hset. split; [exact Hset|].
  destruct (validators_at this k) as [z| |] eqn:Hslot; try discriminate Herr.
  rewrite Hd, bind_lift_Normal in Herr.
  rewrite outcome_bind in Herr. cbn in Herr.
  apply validators_at_Validator in Hslot.
  exists json, k, d, z. auto 10.
Qed.


Lemma trace_optional_call c f arg : trace (optional_call c f arg) = call_if_set c f.
Proof. destruct f; reflexivity. Qed.

Lemma outcome_optional_call_returns c f arg :
  hook_returns f -> exists r, outcome (optional_call c f arg) = Normal r.
Proof.
  intros H. destruct f as [g|]; [|eexists; reflexivity].
  destruct (H g eq_refl arg) as [r Hr]. exists r. cbn. rewrite Hr. reflexivity.
Qed.

Lemma optional_call_returns c f arg :
  hook_returns f -> exists r, optional_call c f arg = (call_if_set c f, Normal r).
Proof.
  intros H. destruct f as [g|]; [|exists VUndefined; reflexivity].
  destruct (H g eq_refl arg) as [r Hr]. exists r. cbn. rewrite Hr. reflexivity.
Qed.

Lemma parse_throws_SyntaxError (s : string) (e : exn) :
  JSON.parse s = Throw e -> e = SyntaxError.
Proof.
  unfold JSON.parse. destruct (JSON.lex JSON.LDefault s) as [ts|]; [|congruence].
  destruct (JSON.parse_tokens (JSON.PValue []) ts); congruence.
Qed.

Lemma receiver_parse_throws (this : WsSchema) (on : gmap string (option callback))
    (config : Config) (s : string) (e : exn) :
  JSON.parse s = Throw e ->
  trace (receiver this on config s)
  = call_if_set (Report PayloadIsNonJSON (VStr s)) (hook_of config PayloadIsNonJSON) /\
  (hook_returns (hook_of config PayloadIsNonJSON) ->
   outcome (receiver this on config s) = Normal VUndefined).
Proof.
  intros Hs. pose proof (parse_throws_SyntaxError s e Hs) as ->.
  unfold receiver. rewrite Hs. cbn [lift bind try_catch]. unfold hook_of.
  split.
  - destruct (errors_hook config onPayloadIsNonJSON) as [g|]; [|reflexivity].
    cbn. destruct (g (VStr s)); reflexivity.
  - intros H.
    destruct (optional_call_returns (Report PayloadIsNonJSON (VStr s)) _ (VStr s) H) as [r ->].
    cbn. reflexivity.
Qed.

(** X1.  A message naming an event [E] that has a validator and a handler,
    with truthy data [P] that the validator rejects by a [ZodError]: the
    receiver calls the validator, then [onInvalidPayload] if that hook is
    set, with [{event: E, payload: P}], and then, since the [catch] of the
    validation does not return, the handler with the rejected [P]; it
    returns [undefined].  (Hook and handler are taken to return.) *)
Theorem receiver_rejected_payload (this : WsSchema) (on : gmap string (option callback))
    (config : Config) (s : string) (json : value) (E : string) (P : value)
    (z : ZodType) (h : callback) (r : value) :
  JSON.parse s = Normal json ->
  Get json "event" = Normal (VStr E) -> Get json "data" = Normal P ->
  E <> EmptyString -> ToBoolean P = true ->
  validators this !! E = Some z -> parse z P = Throw ZodError ->
  hook_returns (hook_of config InvalidPayload) ->
  on !! E = Some (Some h) -> h P = Normal r ->
  receiver this on config s
  = (Validate E P ::
       (call_if_set (Report InvalidPayload (VObj [("event", VStr E); ("payload", P)]))
          (hook_of config InvalidPayload) ++ [Handle E P])%list,
     Normal VUndefined).
Proof.
  intros Hs He Hd HE HP Hz Hv Hhook Hh Hr.
  rewrite (receiver_decoded this on config s json (VStr E) P E Hs He Hd eq_refl).
  cbn [ToBoolean typeof_string]. rewrite (string_nonempty E HE), HP.
  rewrite (validators_at_own this E z Hz), (includes_own on E _ Hh), Hh.
  destruct (optional_call_returns
              (Report InvalidPayload (VObj [("event", VStr E); ("payload", P)])) _
              (VObj [("event", VStr E); ("payload", P)]) Hhook) as [r' Hr'].
  unfold hook_of in *. cbn. rewrite Hv. cbn. rewrite Hr'. cbn. rewrite Hr.
  cbn. rewrite ?app_nil_r. reflexivity.
Qed.



Lemma reports_only (t : list call) :
  Forall is_report t -> handled t = [] /\ validated t = [].
Proof.
  induction 1 as [|c t Hc Ht [IH1 IH2]]; [split; reflexivity|].
  destruct c; try contradiction. simpl. auto.
Qed.

Ltac reports :=
  repeat first
    [ apply all_calls_ret | apply all_calls_lift | apply all_calls_throw
    | apply all_calls_optional_call; exact I
    | apply all_calls_when
    | apply all_calls_bind; [|intros ? _]
    | apply all_calls_try_catch; [|intros ? _]
    | match goal with
      | |- all_calls _ (if ?b then _ else _) => destruct b
      | |- all_calls _ (match ?x with _ => _ end) => destruct x
      end ].

(** X3.  When the handler table has no key equal to the [event] of the
    decoded text, the receiver calls no handler and no validator, whatever
    the text, the schema and the hooks are. *)
Theorem receiver_without_handler (this : WsSchema) (on : gmap string (option callback))
    (config : Config) (s : string) :
  (forall json k, JSON.parse s = Normal json -> Get json "event" = Normal (VStr k) ->
                  on !! k = None) ->
  handled (trace (receiver this on config s)) = [] /\
  validated (trace (receiver this on config s)) = [].
Proof.
  intros Hkey. apply reports_only. change (all_calls is_report (receiver this on config s)).
  unfold receiver. apply all_calls_try_catch; [|intros err _; reports].
  apply all_calls_bind; [reports|]. intros json Hjson. rewrite outcome_lift in Hjson.
  apply all_calls_bind; [reports|]. intros malformed _.
  apply all_calls_bind; [reports|]. intros _ _.
  apply all_calls_bind; [reports|]. intros e _.
  apply all_calls_bind; [reports|]. intros key _.
  apply all_calls_bind; [unfold received; reports|]. intros _ _.
  apply all_calls_bind; [reports|]. intros e0 He0. rewrite outcome_lift in He0.
  destruct (negb (includes (Object_keys on) e0)) eqn:Hinc; [reports|].
  apply negb_false_iff in Hinc. destruct (includes_true _ _ Hinc) as [k ->].
  rewrite (includes_not_own on k (Hkey json k Hjson He0)) in Hinc. discriminate.
Qed.

(** X4.  A well-formed message of an event of the schema for which the
    handler table has no key is dropped in silence: the receiver calls
    nothing, no hook either, and returns [undefined]. *)
Theorem receiver_event_ignored (this : WsSchema) (on : gmap string (option callback))
    (config : Config) (s : string) (json : value) (E : string) (P : value) (z : ZodType) :
  JSON.parse s = Normal json ->
  Get json "event" = Normal (VStr E) -> Get json "data" = Normal P ->
  E <> EmptyString -> ToBoolean P = true ->
  validators this !! E = Some z -> on !! E = None ->
  receiver this on config s = ([], Normal VUndefined).
Proof.
  intros Hs He Hd HE HP Hz Hh.
  rewrite (receiver_decoded this on config s json (VStr E) P E Hs He Hd eq_refl).
  cbn [ToBoolean typeof_string]. rewrite (string_nonempty E HE), HP.
  rewrite (validators_at_own this E z Hz), (includes_not_own on E Hh).
  reflexivity.
Qed.

Lemma validators_at_inherited this k :
  validators this !! k = None -> k ∈ Object_prototype_names ->
  validators_at this k = Inherited.
Proof.
  intros H Hin. unfold validators_at. rewrite H.
  rewrite bool_decide_eq_true_2 by exact Hin. reflexivity.
Qed.

Lemma validators_at_unknown this k :
  validators this !! k = None -> k ∉ Object_prototype_names ->
  validators_at this k = Undefined.
Proof.
  intros H Hin. unfold validators_at. rewrite H.
  rewrite bool_decide_eq_false_2 by exact Hin. reflexivity.
Qed.

(** X5.  A message whose [event] is a name every object inherits
    ([toString], [constructor], ...) and that neither the schema nor the
    handler table has as a key of its own: [this.validators[json.event]] is
    then the inherited member, which is truthy, so [onUnrecognisedEvent] is
    not called, and no validator and no handler is called.  With truthy
    [data] the receiver calls nothing; with falsy [data] its one call is
    [onMalformedJSON], if set, on the decoded message.  It returns
    [undefined].  (With falsy [data] the hook [onMalformedJSON] is taken to
    return.) *)
Theorem receiver_inherited_name (this : WsSchema) (on : gmap string (option callback))
    (config : Config) (s : string) (json : value) (E : string) (P : value) :
  JSON.parse s = Normal json ->
  Get json "event" = Normal (VStr E) -> Get json "data" = Normal P ->
  E ∈ Object_prototype_names ->
  validators this !! E = None -> on !! E = None ->
  (ToBoolean P = false -> hook_returns (hook_of config MalformedJSON)) ->
  receiver this on config s
  = (if ToBoolean P then []
     else call_if_set (Report MalformedJSON json) (hook_of config MalformedJSON),
     Normal VUndefined).
Proof.
  intros Hs He Hd Hin Hz Hh Hhook.
  rewrite (receiver_decoded this on config s json (VStr E) P E Hs He Hd eq_refl).
  cbn [ToBoolean typeof_string].
  assert (String.eqb E EmptyString = false) as ->.
  { apply String.eqb_neq. intros ->. vm_compute in Hin.
    repeat (apply elem_of_cons in Hin as [Hin|Hin]; [discriminate Hin|]).
    apply elem_of_nil in Hin. exact Hin. }
  rewrite (validators_at_inherited this E Hz Hin), (includes_not_own on E Hh).
  destruct (ToBoolean P); [reflexivity|].
  destruct (optional_call_returns (Report MalformedJSON json) _ json (Hhook eq_refl))
    as [r' Hr'].
  unfold hook_of in *. cbn. rewrite Hr'. cbn. rewrite ?app_nil_r. reflexivity.
Qed.

(** X6.  A message with truthy data whose [event] is a non-empty string that
    is neither in the schema nor an inherited name, and for which the table
    has no handler: the one call of the receiver is [onUnrecognisedEvent],
    if set, with [{event, payload}]; it returns [undefined].  (The hook is
    taken to return.) *)
Theorem receiver_unrecognised_event (this : WsSchema) (on : gmap string (option callback))
    (config : Config) (s : string) (json : value) (E : string) (P : value) :
  JSON.parse s = Normal json ->
  Get json "event" = Normal (VStr E) -> Get json "data" = Normal P ->
  E <> EmptyString -> ToBoolean P = true ->
  validators this !! E = None -> E ∉ Object_prototype_names -> on !! E = None ->
  hook_returns (hook_of config UnrecognisedEvent) ->
  receiver this on config s
  = (call_if_set (Report UnrecognisedEvent (VObj [("event", VStr E); ("payload", P)]))
       (hook_of config UnrecognisedEvent),
     Normal VUndefined).
Proof.
  intros Hs He Hd HE HP Hz Hproto Hh Hhook.
  rewrite (receiver_decoded this on config s json (VStr E) P E Hs He Hd eq_refl).
  cbn [ToBoolean typeof_string]. rewrite (string_nonempty E HE), HP.
  rewrite (validators_at_unknown this E Hz Hproto), (includes_not_own on E Hh).
  destruct (optional_call_returns
              (Report UnrecognisedEvent (VObj [("event", VStr E); ("payload", P)])) _
              (VObj [("event", VStr E); ("payload", P)]) Hhook) as [r' Hr'].
  unfold hook_of in *. cbn. rewrite Hr'. cbn. rewrite ?app_nil_r. reflexivity.
Qed.

Lemma parse_step_defined (st st' : JSON.pstate) (t : JSON.token) :
  JSON.parse_step st t = Some st' -> st' <> JSON.PDone VUndefined.
Proof.
  destruct st as [stack|stack|stack|props stack|props key stack|items stack|props stack|v];
    destruct t; simpl; intros H; try discriminate H;
    injection H as <-; unfold JSON.after_value;
    destruct stack as [|[] stack]; discriminate.
Qed.

Lemma parse_tokens_defined (ts : list JSON.token) (st : JSON.pstate) :
  st <> JSON.PDone VUndefined -> JSON.parse_tokens st ts <> Some VUndefined.
Proof.
  revert st. induction ts as [|t ts IH]; intros st Hst; simpl.
  - destruct st; try discriminate. intros [= ->]. contradiction.
  - destruct (JSON.parse_step st t) as [st'|] eqn:E; [|discriminate].
    apply IH. eapply parse_step_defined, E.
Qed.

Lemma parse_defined (s : string) : JSON.parse s <> Normal VUndefined.
Proof.
  unfold JSON.parse. destruct (JSON.lex JSON.LDefault s) as [ts|]; [|discriminate].
  destruct (JSON.parse_tokens (JSON.PValue []) ts) as [v|] eqn:E; [|discriminate].
  intros [= ->]. revert E. apply parse_tokens_defined. discriminate.
Qed.

Lemma Get_object (o : value) (name : string) :
  o <> VUndefined -> o <> VNull -> exists v, Get o name = Normal v.
Proof. destruct o; simpl; intros H1 H2; try contradiction; eauto. Qed.

(** X7.  When the receiver does not throw.  If the hooks and the handlers
    return, the validators throw nothing but [ZodError], the handler table
    has keys of the schema only, the text does not decode to [null], and
    [json.event] can be made a property key, then the receiver returns
    [undefined] on the text. *)
Theorem receiver_contained (this : WsSchema) (on : gmap string (option callback))
    (config : Config) (s : string) :
  hooks_return config -> handlers_return on ->
  validators_throw_ZodError this -> handlers_in_schema this on ->
  JSON.parse s <> Normal VNull ->
  (forall json e, JSON.parse s = Normal json -> Get json "event" = Normal e ->
                  exists key, ToPropertyKey e = Normal key) ->
  outcome (receiver this on config s) = Normal VUndefined.
Proof.
  intros (Hnon & Hmal & Hunr & Hinv) Hon Hzod Hschema Hnull Hkey.
  destruct (JSON.parse s) as [json|err] eqn:Hs.
  2:{ apply (receiver_parse_throws this on config s err Hs). exact Hnon. }
  assert (json <> VUndefined) as Hundef.
  { intros ->. exact (parse_defined s Hs). }
  assert (json <> VNull) as Hnull' by congruence.
  destruct (Get_object json "event" Hundef Hnull') as [e He].
  destruct (Get_object json "data" Hundef Hnull') as [d Hd].
  destruct (Hkey json e eq_refl He) as [key Hk].
  rewrite (receiver_decoded this on config s json e d key Hs He Hd Hk).
  destruct (optional_call_returns (Report MalformedJSON json) _ json Hmal) as [r1 ->].
  destruct (optional_call_returns
              (Report UnrecognisedEvent (VObj [("event", e); ("payload", d)])) _
              (VObj [("event", e); ("payload", d)]) Hunr) as [r2 ->].
  destruct (optional_call_returns
              (Report InvalidPayload (VObj [("event", e); ("payload", d)])) _
              (VObj [("event", e); ("payload", d)]) Hinv) as [r3 Hr3].
  assert (outcome
    (if negb (includes (Object_keys on) e) then ret VUndefined else
     try_catch
       (match validators_at this key with
        | Validator z => perform (Validate key d) ;; lift (parse z d)
        | Inherited | Undefined => throw TypeError
        end)
       (fun err =>
          match err with
          | ZodError =>
              optional_call (Report InvalidPayload (VObj [("event", e); ("payload", d)]))
                (errors_hook config onInvalidPayload) (VObj [("event", e); ("payload", d)])
          | _ => throw err
          end) ;;
     optional_call (Handle key d) (default None (on !! key)) d ;;
     ret VUndefined) = Normal VUndefined) as Hcore.
  { destruct (includes (Object_keys on) e) eqn:Hinc; [|reflexivity]. cbn [negb].
    destruct (includes_true _ _ Hinc) as [k ->]. cbn in Hk. injection Hk as <-.
    assert (is_Some (on !! k)) as Hown.
    { destruct (on !! k) eqn:Hl; [eauto|].
      rewrite (includes_not_own on k Hl) in Hinc. discriminate. }
    destruct (Hschema k Hown) as [z Hz]. rewrite (validators_at_own this k z Hz).
    rewrite Hr3.
    destruct Hown as [oh Hoh]. rewrite Hoh.
    assert (exists r, optional_call (Handle k d) (default None (Some oh)) d
                      = (call_if_set (Handle k d) oh, Normal r)) as [r4 ->].
    { apply optional_call_returns. intros g ->. exact (Hon k g Hoh). }
    destruct (parse z d) as [v|err] eqn:Hp; cbn; [reflexivity|].
    rewrite (Hzod k z d err Hz Hp). reflexivity. }
  rewrite outcome_try_catch, outcome_bind.
  destruct (if negb (ToBoolean e) then ret true
            else if negb (ToBoolean d) then ret true else ret (negb (typeof_string e)))
    as [t0 [malformed|x]] eqn:Hm.
  2:{ destruct (ToBoolean e), (ToBoolean d); discriminate Hm. }
  cbn [outcome snd]. rewrite outcome_bind.
  assert (forall b t r, outcome (when b (t, Normal r)) = Normal (if b then r else VUndefined))
    as Hwhen by (intros []; reflexivity).
  rewrite Hwhen, outcome_bind, Hwhen. rewrite Hcore. reflexivity.
Qed.

(** *** Order and number of the calls *)


Lemma calls_within_nil {A} (L : list call) (m : M A) : trace m = [] -> calls_within L m.
Proof. unfold calls_within. intros ->. apply sublist_nil_l. Qed.

Lemma calls_within_bind {A B} (L1 L2 : list call) (m : M A) (f : A -> M B) :
  calls_within L1 m -> (forall a, outcome m = Normal a -> calls_within L2 (f a)) ->
  calls_within (L1 ++ L2) (bind m f).
Proof.
  unfold calls_within. intros H1 H2. rewrite trace_bind.
  destruct (outcome m) as [a|e].
  - apply sublist_app; [exact H1 | apply H2; reflexivity].
  - apply sublist_inserts_r, H1.
Qed.

Lemma calls_within_try_catch {A} (L1 L2 : list call) (m : M A) (h : exn -> M A) :
  calls_within L1 m -> (forall e, outcome m = Throw e -> calls_within L2 (h e)) ->
  calls_within (L1 ++ L2) (try_catch m h).
Proof.
  unfold calls_within. intros H1 H2. rewrite trace_try_catch.
  destruct (outcome m) as [a|e].
  - apply sublist_inserts_r, H1.
  - apply sublist_app; [exact H1 | apply H2; reflexivity].
Qed.

Lemma calls_within_optional_call (c : call) f arg :
  calls_within [c] (optional_call c f arg).
Proof.
  unfold calls_within. rewrite trace_optional_call.
  destruct f; [reflexivity | apply sublist_nil_l].
Qed.

Lemma calls_within_when (L : list call) b m :
  calls_within L m -> calls_within L (when b m).
Proof. intros H. destruct b; [exact H | apply calls_within_nil; reflexivity]. Qed.

Lemma calls_within_handler (s : string) (config : Config) (err : exn) :
  calls_within [Report PayloadIsNonJSON (VStr s)]
    (match err with
     | SyntaxError =>
         optional_call (Report PayloadIsNonJSON (VStr s))
           (errors_hook config onPayloadIsNonJSON) (VStr s) ;;
         ret VUndefined
     | _ => throw err
     end).
Proof.
  destruct err; try (apply calls_within_nil; reflexivity).
  apply (calls_within_bind [_] []); [apply calls_within_optional_call|].
  intros. apply calls_within_nil. reflexivity.
Qed.

(** X8.  The order of the calls.  On every text, for every schema, table
    and configuration, the calls of the receiver are some of: the hook
    [onMalformedJSON] on the decoded value, [onUnrecognisedEvent] on
    [{event, payload}], the validator of the event on the data,
    [onInvalidPayload] on [{event, payload}], the handler of the event on
    the data, [onPayloadIsNonJSON] on the raw text; in this order, each at
    most once. *)
Theorem receiver_call_order (this : WsSchema) (on : gmap string (option callback))
    (config : Config) (s : string) :
  exists json e d key,
    trace (receiver this on config s) `sublist_of`
      [ Report MalformedJSON json;
        Report UnrecognisedEvent (VObj [("event", e); ("payload", d)]);
        Validate key d;
        Report InvalidPayload (VObj [("event", e); ("payload", d)]);
        Handle key d;
        Report PayloadIsNonJSON (VStr s) ].
Proof.
  destruct (JSON.parse s) as [json|err] eqn:Hs.
  2:{ exists VUndefined, VUndefined, VUndefined, EmptyString.
      rewrite (proj1 (receiver_parse_throws this on config s err Hs)).
      apply (sublist_inserts_l [_; _; _; _; _]).
      destruct (hook_of config PayloadIsNonJSON); [reflexivity | apply sublist_nil_l]. }
  destruct (Get json "event") as [e|err] eqn:He.
  2:{ exists VUndefined, VUndefined, VUndefined, EmptyString.
      assert (err = TypeError) as -> by (destruct json; simpl in He; congruence).
      unfold receiver. rewrite Hs, bind_lift_Normal, He. apply sublist_nil_l. }
  destruct (Get_defined json "event" "data" e He) as [d Hd].
  destruct (ToPropertyKey e) as [key|err] eqn:Hk.
  - exists json, e, d, key.
    rewrite (receiver_decoded this on config s json e d key Hs He Hd Hk).
    apply (calls_within_try_catch [_; _; _; _; _] [_]); [|intros; apply calls_within_handler].
    apply (calls_within_bind [] [_; _; _; _; _]).
    { apply calls_within_nil. destruct (ToBoolean e), (ToBoolean d); reflexivity. }
    intros malformed _.
    apply (calls_within_bind [_] [_; _; _; _]).
    { apply calls_within_when, calls_within_optional_call. }
    intros _ _. apply (calls_within_bind [_] [_; _; _]).
    { apply calls_within_when, calls_within_optional_call. }
    intros _ _. destruct (negb (includes (Object_keys on) e)).
    { apply calls_within_nil. reflexivity. }
    apply (calls_within_bind [_; _] [_]).
    { apply (calls_within_try_catch [_] [_]).
      - destruct (validators_at this key); try (apply calls_within_nil; reflexivity).
        apply (calls_within_bind [_] []); [unfold calls_within; reflexivity|].
        intros. apply calls_within_nil. reflexivity.
      - intros err _. destruct err; try (apply calls_within_nil; reflexivity).
        apply calls_within_optional_call. }
    intros _ _. apply (calls_within_bind [_] []); [apply calls_within_optional_call|].
    intros. apply calls_within_nil. reflexivity.
  - exists json, e, d, EmptyString.
    unfold receiver, received. rewrite Hs, bind_lift_Normal. rewrite !He, !Hd.
    repeat (rewrite bind_lift_Normal; cbv beta). rewrite Hk.
    apply (calls_within_try_catch [_; _; _; _; _] [_]); [|intros; apply calls_within_handler].
    apply (calls_within_bind [] [_; _; _; _; _]).
    { apply calls_within_nil. destruct (ToBoolean e), (ToBoolean d); reflexivity. }
    intros malformed _.
    apply (calls_within_bind [_] [_; _; _; _]).
    { apply calls_within_when, calls_within_optional_call. }
    intros _ _. apply calls_within_nil. reflexivity.
Qed.

(** *** When the handler is called *)


Ltac other_calls :=
  repeat first
    [ apply all_calls_ret | apply all_calls_lift | apply all_calls_throw
    | apply all_calls_perform; exact I
    | apply all_calls_optional_call; exact I
    | apply all_calls_when
    | apply all_calls_bind; [|intros ? _]
    | apply all_calls_try_catch; [|intros ? _]
    | match goal with
      | |- all_calls _ (if ?b then _ else _) => destruct b
      | |- all_calls _ (match ?x with _ => _ end) => destruct x
      end ].

Lemma receiver_dispatch_justified (this : WsSchema) (on : gmap string (option callback))
    (config : Config) (s : string) :
  all_calls (dispatch_justified this on s) (receiver this on config s).
Proof.
  unfold receiver. apply all_calls_try_catch; [|intros err _; other_calls].
  apply all_calls_bind; [other_calls|]. intros json Hjson. rewrite outcome_lift in Hjson.
  apply all_calls_bind; [other_calls|]. intros malformed _.
  apply all_calls_bind; [other_calls|]. intros _ _.
  apply all_calls_bind; [other_calls|]. intros e _.
  apply all_calls_bind; [other_calls|]. intros key _.
  apply all_calls_bind; [unfold received; other_calls|]. intros _ _.
  apply all_calls_bind; [other_calls|]. intros e0 He. rewrite outcome_lift in He.
  destruct (negb (includes (Object_keys on) e0)) eqn:Hinc; [other_calls|].
  apply negb_false_iff, includes_true in Hinc as [k ->].
  destruct (Get_defined json "event" "data" _ He) as [d Hd].
  rewrite !He, !Hd. unfold received. rewrite !He, !Hd.
  repeat (rewrite bind_lift_Normal; cbv beta). cbn [ToPropertyKey ToString].
  repeat (rewrite bind_lift_Normal; cbv beta).
  apply all_calls_bind.
  { apply all_calls_try_catch.
    - destruct (validators_at this k); other_calls.
    - intros err _. destruct err; other_calls. }
  intros a Hinner.
  apply all_calls_bind; [|intros; apply all_calls_ret].
  apply all_calls_optional_call_set. intros [h Hh].
  destruct (on !! k) as [[h'|]|] eqn:Hon; try discriminate Hh. cbn in Hh. injection Hh as <-.
  rewrite outcome_try_catch in Hinner.
  destruct (validators_at this k) as [z| |] eqn:Hslot; try discriminate Hinner.
  apply validators_at_Validator in Hslot.
  exists json, z, h'. repeat (split; [assumption|]).
  rewrite bind_lift_Normal, outcome_bind in Hinner. cbn in Hinner.
  destruct (parse z d) as [v|[]]; try discriminate Hinner; eauto.
Qed.

Lemma elem_of_trace_try_catch_l {A} (m : M A) (h : exn -> M A) (c : call) :
  c ∈ trace m -> c ∈ trace (try_catch m h).
Proof.
  intros H. rewrite trace_try_catch. destruct (outcome m); [exact H|].
  apply elem_of_app. auto.
Qed.

Lemma elem_of_trace_bind_l {A B} (m : M A) (f : A -> M B) (c : call) :
  c ∈ trace m -> c ∈ trace (bind m f).
Proof.
  intros H. rewrite trace_bind. destruct (outcome m); [|exact H].
  apply elem_of_app. auto.
Qed.

Lemma elem_of_trace_bind_r {A B} (m : M A) (f : A -> M B) (a : A) (c : call) :
  outcome m = Normal a -> c ∈ trace (f a) -> c ∈ trace (bind m f).
Proof.
  intros Hm H. rewrite trace_bind, Hm. apply elem_of_app. auto.
Qed.

Lemma outcome_when_returns (b : bool) (c : call) (f : option callback) (arg : value) :
  hook_returns f -> exists r, outcome (when b (optional_call c f arg)) = Normal r.
Proof.
  intros H. destruct b; [|eexists; reflexivity].
  apply outcome_optional_call_returns, H.
Qed.

Lemma outcome_shape_check (e d : value) :
  exists malformed,
    outcome (if negb (ToBoolean e) then ret true
             else if negb (ToBoolean d) then ret true
                  else ret (negb (typeof_string e))) = Normal malformed.
Proof. destruct (ToBoolean e), (ToBoolean d); eexists; reflexivity. Qed.

Lemma Handle_iff (this : WsSchema) (on : gmap string (option callback))
    (config : Config) (s : string) (E : string) (P : value) :
  hooks_return config ->
  Handle E P ∈ trace (receiver this on config s) <->
  exists json z h,
    JSON.parse s = Normal json /\
    Get json "event" = Normal (VStr E) /\ Get json "data" = Normal P /\
    validators this !! E = Some z /\ on !! E = Some (Some h) /\
    (parse z P = Throw ZodError \/ exists v, parse z P = Normal v).
Proof.
  intros (Hnon & Hmal & Hunr & Hinv). split.
  - intros Hin.
    pose proof (receiver_dispatch_justified this on config s) as Hall.
    unfold all_calls in Hall. rewrite Forall_forall in Hall. exact (Hall _ Hin).
  - intros (json & z & h & Hs & He & Hd & Hz & Hh & Hp).
    rewrite (receiver_decoded this on config s json (VStr E) P E Hs He Hd eq_refl).
    rewrite (validators_at_own this E z Hz), (includes_own on E _ Hh), Hh.
    cbn [slot_truthy negb when default].
    apply elem_of_trace_try_catch_l.
    destruct (outcome_shape_check (VStr E) P) as [malformed Hm].
    eapply elem_of_trace_bind_r; [exact Hm|].
    destruct (outcome_when_returns malformed (Report MalformedJSON json) _ json Hmal)
      as [r1 Hr1].
    eapply elem_of_trace_bind_r; [exact Hr1|].
    eapply elem_of_trace_bind_r; [reflexivity|].
    destruct (outcome_optional_call_returns
                (Report InvalidPayload (VObj [("event", VStr E); ("payload", P)])) _
                (VObj [("event", VStr E); ("payload", P)]) Hinv) as [r3 Hr3].
    eapply elem_of_trace_bind_r with (a := match parse z P with Normal v => v | _ => r3 end).
    { rewrite outcome_try_catch, outcome_bind. cbn.
      destruct Hp as [->|[v ->]]; [exact Hr3 | reflexivity]. }
    apply elem_of_trace_bind_l. cbn. apply list_elem_of_here.
Qed.
(** *** The outcome on each kind of message *)

(** X9.  A text that [JSON.parse] refuses: the one call of the receiver is
    [onPayloadIsNonJSON], if set, with the raw text; no validator, no
    handler and no other hook is called.  If that hook returns, the
    receiver returns [undefined]. *)
Theorem receiver_on_non_JSON_text (this : WsSchema) (on : gmap string (option callback))
    (config : Config) (s : string) (e : exn) :
  JSON.parse s = Throw e ->
  trace (receiver this on config s)
  = call_if_set (Report PayloadIsNonJSON (VStr s)) (hook_of config PayloadIsNonJSON) /\
  (hook_returns (hook_of config PayloadIsNonJSON) ->
   outcome (receiver this on config s) = Normal VUndefined).
Proof. exact (receiver_parse_throws this on config s e). Qed.

(** X10.  A message [{event: E, data: P}] with [E] a non-empty string of the
    schema, [P] truthy and accepted by the validator of [E], and a handler
    for [E] that returns: the receiver calls the validator on [P], then the
    handler on [P], nothing else (no hook), and returns [undefined]. *)
Theorem receiver_dispatch (this : WsSchema) (on : gmap string (option callback))
    (config : Config) (s : string) (json : value) (E : string) (P : value)
    (z : ZodType) (v : value) (h : callback) (r : value) :
  JSON.parse s = Normal json -> Get json "event" = Normal (VStr E) -> Get json "data" = Normal P ->
  E <> EmptyString -> ToBoolean P = true -> validators this !! E = Some z -> parse z P = Normal v ->
  on !! E = Some (Some h) -> h P = Normal r ->
  receiver this on config s = ([Validate E P; Handle E P], Normal VUndefined).
Proof. exact (receiver_accepts this on config s json E P z v h r). Qed.

(** X11.  When a handler is called.  With hooks that return, the receiver
    calls the handler of [E] on [P] exactly when the text decodes to a value
    whose [event] is the string [E] and whose [data] is [P], the schema has
    a validator for [E] that on [P] returns or throws a [ZodError], and the
    table has a handler for [E].  Neither a truthy [data] nor a payload the
    validator accepts is needed. *)
Theorem receiver_dispatch_iff (this : WsSchema) (on : gmap string (option callback))
    (config : Config) (s : string) (E : string) (P : value) :
  hooks_return config ->
  Handle E P ∈ trace (receiver this on config s) <->
  exists json z h,
    JSON.parse s = Normal json /\
    Get json "event" = Normal (VStr E) /\ Get json "data" = Normal P /\
    validators this !! E = Some z /\ on !! E = Some (Some h) /\
    (parse z P = Throw ZodError \/ exists v, parse z P = Normal v).
Proof. exact (Handle_iff this on config s E P). Qed.


(** *** Every report rests on its category *)

(** X12.  When a hook is called.  Whatever the handlers and hooks do, a call
    of a hook by the receiver on the text [s] means: the hook is set, and
    - for [onPayloadIsNonJSON], its argument is [s];
    - for [onMalformedJSON], [s] decodes to its argument, whose [event] is
      falsy or not a string or whose [data] is falsy;
    - for [onUnrecognisedEvent], its argument is [{event, payload}] of the
      decoded text and the schema has no validator under the key of
      [event], nor is that key an inherited name;
    - for [onInvalidPayload], its argument is [{event, payload}] of the
      decoded text, [event] is a string and the validator of that event
      throws a [ZodError] on the data. *)
Theorem receiver_report_justified (this : WsSchema) (on : gmap string (option callback))
    (config : Config) (s : string) (h : hook) (arg : value) :
  Report h arg ∈ trace (receiver this on config s) ->
  report_justified this config s (Report h arg).
Proof.
  intros Hin.
  pose proof (receiver_reports_justified this on config s) as Hall.
  unfold all_calls in Hall. rewrite Forall_forall in Hall. exact (Hall _ Hin).
Qed.

(** *** The theorems above at sample inputs *)

Lemma quiet_returns : returns_always quiet.
Proof. intros v. exists VUndefined. reflexivity. Qed.

Lemma all_hooks_hook_returns (h : hook) : hook_returns (hook_of all_hooks h).
Proof. destruct h; intros g [= <-]; exact quiet_returns. Qed.

Lemma all_hooks_return : hooks_return all_hooks.
Proof.
  repeat split; intros g [= <-]; exact quiet_returns.
Qed.

Lemma message_handler_returns : handlers_return {[ "message" := Some quiet ]}.
Proof.
  intros k f H. apply lookup_singleton_Some in H as [_ [= <-]]. exact quiet_returns.
Qed.

Lemma chat_throws_ZodError : validators_throw_ZodError chat.
Proof.
  intros k z v e H.
  change (validators chat) with ({[ "message" := z.string ]} : gmap string ZodType) in H.
  apply lookup_singleton_Some in H as [_ <-].
  destruct v; simpl; congruence.
Qed.

Lemma message_handler_in_chat : handlers_in_schema chat {[ "message" := Some quiet ]}.
Proof.
  intros k [x H]. apply lookup_singleton_Some in H as [<- _]. eexists. reflexivity.
Qed.

Lemma receiver_on_non_JSON_text_witness :
  trace (receiver chat {[ "message" := Some quiet ]} all_hooks "not json")
  = [Report PayloadIsNonJSON (VStr "not json")] /\
  (hook_returns (hook_of all_hooks PayloadIsNonJSON) ->
   outcome (receiver chat {[ "message" := Some quiet ]} all_hooks "not json")
   = Normal VUndefined).
Proof.
  apply (receiver_on_non_JSON_text chat {[ "message" := Some quiet ]} all_hooks "not json"
           SyntaxError).
  reflexivity.
Defined.

Lemma receiver_dispatch_witness :
  receiver chat {[ "message" := Some quiet ]} all_hooks hi_text
  = ([Validate "message" (VStr "hi"); Handle "message" (VStr "hi")], Normal VUndefined).
Proof.
  apply (receiver_dispatch chat {[ "message" := Some quiet ]} all_hooks hi_text
           (envelope "message" (VStr "hi")) "message" (VStr "hi") z.string (VStr "hi")
           quiet VUndefined);
    try reflexivity; discriminate.
Defined.

Lemma receiver_rejected_payload_witness :
  receiver chat {[ "message" := Some quiet ]} all_hooks (dq "{'event':'message','data':5}")
  = ([ Validate "message" (VNum 5 0);
       Report InvalidPayload (VObj [("event", VStr "message"); ("payload", VNum 5 0)]);
       Handle "message" (VNum 5 0) ],
     Normal VUndefined).
Proof.
  apply (receiver_rejected_payload chat {[ "message" := Some quiet ]} all_hooks
           (dq "{'event':'message','data':5}") (envelope "message" (VNum 5 0))
           "message" (VNum 5 0) z.string quiet VUndefined);
    try reflexivity; [discriminate | apply all_hooks_hook_returns].
Defined.


Lemma receiver_without_handler_witness :
  handled (trace (receiver demo {[ "message" := Some quiet ]} all_hooks
                    (dq "{'event':'heartbeat','data':1}"))) = [] /\
  validated (trace (receiver demo {[ "message" := Some quiet ]} all_hooks
                      (dq "{'event':'heartbeat','data':1}"))) = [].
Proof.
  apply (receiver_without_handler demo {[ "message" := Some quiet ]} all_hooks
           (dq "{'event':'heartbeat','data':1}")).
  intros json k Hjson Hk. vm_compute in Hjson. injection Hjson as <-.
  vm_compute in Hk. injection Hk as <-. reflexivity.
Defined.

Lemma receiver_event_ignored_witness :
  receiver demo {[ "message" := Some quiet ]} all_hooks (dq "{'event':'heartbeat','data':1}")
  = ([], Normal VUndefined).
Proof.
  apply (receiver_event_ignored demo {[ "message" := Some quiet ]} all_hooks
           (dq "{'event':'heartbeat','data':1}") (envelope "heartbeat" (VNum 1 0))
           "heartbeat" (VNum 1 0) z.number);
    try reflexivity; discriminate.
Defined.

Lemma receiver_inherited_name_witness :
  receiver chat {[ "message" := Some quiet ]} all_hooks (dq "{'event':'toString','data':0}")
  = ([Report MalformedJSON (envelope "toString" (VNum 0 0))], Normal VUndefined).
Proof.
  apply (receiver_inherited_name chat {[ "message" := Some quiet ]} all_hooks
           (dq "{'event':'toString','data':0}") (envelope "toString" (VNum 0 0))
           "toString" (VNum 0 0));
    try reflexivity.
  - unfold Object_prototype_names.
    repeat (first [apply list_elem_of_here | apply list_elem_of_further]).
  - intros _. apply all_hooks_hook_returns.
Defined.

Lemma receiver_unrecognised_event_witness :
  receiver chat {[ "message" := Some quiet ]} all_hooks (dq "{'event':'bye','data':1}")
  = ([Report UnrecognisedEvent (VObj [("event", VStr "bye"); ("payload", VNum 1 0)])],
     Normal VUndefined).
Proof.
  apply (receiver_unrecognised_event chat {[ "message" := Some quiet ]} all_hooks
           (dq "{'event':'bye','data':1}") (envelope "bye" (VNum 1 0)) "bye" (VNum 1 0));
    try reflexivity; try discriminate; [|apply all_hooks_hook_returns].
  intros H. vm_compute in H.
  repeat (apply elem_of_cons in H as [H|H]; [discriminate H|]).
  apply elem_of_nil in H. exact H.
Defined.

Lemma receiver_contained_witness :
  outcome (receiver chat {[ "message" := Some quiet ]} all_hooks
             (dq "{'event':'message','data':5}")) = Normal VUndefined.
Proof.
  apply (receiver_contained chat {[ "message" := Some quiet ]} all_hooks
           (dq "{'event':'message','data':5}")).
  - exact all_hooks_return.
  - exact message_handler_returns.
  - exact chat_throws_ZodError.
  - exact message_handler_in_chat.
  - discriminate.
  - intros json e Hjson He. vm_compute in Hjson. injection Hjson as <-.
    vm_compute in He. injection He as <-. eexists. reflexivity.
Defined.

Lemma receiver_dispatch_iff_witness :
  Handle "message" (VNum 5 0)
    ∈ trace (receiver chat {[ "message" := Some quiet ]} all_hooks
               (dq "{'event':'message','data':5}")).
Proof.
  apply (receiver_dispatch_iff chat {[ "message" := Some quiet ]} all_hooks
           (dq "{'event':'message','data':5}") "message" (VNum 5 0) all_hooks_return).
  exists (envelope "message" (VNum 5 0)), z.string, quiet.
  repeat split; try reflexivity. left. reflexivity.
Defined.

Lemma receiver_report_justified_witness :
  report_justified chat all_hooks (dq "{'event':'message','data':5}")
    (Report InvalidPayload (VObj [("event", VStr "message"); ("payload", VNum 5 0)])).
Proof.
  apply (receiver_report_justified chat {[ "message" := Some quiet ]} all_hooks
           (dq "{'event':'message','data':5}")).
  vm_compute. apply list_elem_of_further, list_elem_of_here.
Defined.

(** ** Order of the sends *)




(** ** The receiver as first written *)

Lemma Legacy_bind_lift_Normal {A B} (a : A) (f : A -> Legacy.L B) :
  Legacy.bind (Legacy.lift (Normal a)) f = f a.
Proof. unfold Legacy.bind, Legacy.lift. destruct (f a). reflexivity. Qed.

Lemma Legacy_outcome_try_catch {A} (m : Legacy.L A) (h : exn -> Legacy.L A) :
  Legacy.outcome (Legacy.try_catch m h) =
  match Legacy.outcome m with
  | Normal a => Normal a
  | Throw e => Legacy.outcome (h e)
  end.
Proof.
  destruct m as [t [a|e]]; simpl; [reflexivity|]. destruct (h e); reflexivity.
Qed.

Lemma Legacy_outcome_bind {A B} (m : Legacy.L A) (f : A -> Legacy.L B) :
  Legacy.outcome (Legacy.bind m f) =
  match Legacy.outcome m with
  | Normal a => Legacy.outcome (f a)
  | Throw e => Throw e
  end.
Proof.
  destruct m as [t [a|e]]; simpl; [|reflexivity]. destruct (f a); reflexivity.
Qed.

Lemma Legacy_trace_try_catch {A} (m : Legacy.L A) (h : exn -> Legacy.L A) :
  Legacy.trace (Legacy.try_catch m h) =
  match Legacy.outcome m with
  | Normal _ => Legacy.trace m
  | Throw e => (Legacy.trace m ++ Legacy.trace (h e))%list
  end.
Proof.
  destruct m as [t [a|e]]; simpl; [reflexivity|]. destruct (h e); reflexivity.
Qed.

Lemma Legacy_trace_bind {A B} (m : Legacy.L A) (f : A -> Legacy.L B) :
  Legacy.trace (Legacy.bind m f) =
  match Legacy.outcome m with
  | Normal a => (Legacy.trace m ++ Legacy.trace (f a))%list
  | Throw _ => Legacy.trace m
  end.
Proof.
  destruct m as [t [a|e]]; simpl; [|reflexivity]. destruct (f a); reflexivity.
Qed.



Lemma Legacy_receiver_decoded (this : WsSchema) (on : gmap string (option callback))
    (window : bool) (s : string) (json e d : value) (key : string) :
  JSON.parse s = Normal json ->
  Get json "event" = Normal e ->
  Get json "data" = Normal d ->
  ToPropertyKey e = Normal key ->
  Legacy.receiver this on window s
  = Legacy.try_catch (Legacy_body this on e d key) (fun _ => Legacy_catch window s).
Proof.
  intros Hs He Hd Hk. unfold Legacy.receiver, Legacy_body.
  rewrite Hs, Legacy_bind_lift_Normal. rewrite !He, !Hd.
  rewrite Legacy_bind_lift_Normal.
  destruct (negb (ToBoolean e)); [reflexivity|].
  rewrite Legacy_bind_lift_Normal.
  destruct (negb (ToBoolean d)); [reflexivity|].
  rewrite Legacy_bind_lift_Normal.
  destruct (negb (typeof_string e)); [reflexivity|].
  rewrite Legacy_bind_lift_Normal.
  destruct (negb (includes (Object_keys on) e)); [reflexivity|].
  repeat (rewrite Legacy_bind_lift_Normal; cbv beta).
  rewrite !Hk.
  repeat (rewrite Legacy_bind_lift_Normal; cbv beta).
  destruct (validators_at this key); reflexivity.
Qed.

Lemma Legacy_catch_eq (window : bool) (s : string) :
  Legacy_catch window s
  = (if window then [Legacy.ConsoleError [VStr Legacy.console_message; VStr s]] else [],
     Normal VUndefined).
Proof. destruct window; reflexivity. Qed.

(** When decoding or reading [json.event] fails, the [catch] alone runs. *)
Lemma Legacy_receiver_undecoded (this : WsSchema) (on : gmap string (option callback))
    (window : bool) (s : string) :
  (forall json e, JSON.parse s = Normal json -> Get json "event" = Normal e -> False) ->
  Legacy.receiver this on window s = Legacy_catch window s.
Proof.
  intros H. unfold Legacy.receiver.
  destruct (JSON.parse s) as [json|err] eqn:Hs.
  - rewrite Legacy_bind_lift_Normal.
    destruct (Get json "event") as [e|err] eqn:He; [destruct (H json e eq_refl He)|].
    rewrite Legacy_catch_eq. destruct window; reflexivity.
  - rewrite Legacy_catch_eq. destruct window; reflexivity.
Qed.

Lemma Legacy_body_returns (this : WsSchema) (on : gmap string (option callback))
    (e d : value) (key : string) (a : value) :
  Legacy.outcome (Legacy_body this on e d key) = Normal a -> a = VUndefined.
Proof.
  unfold Legacy_body.
  repeat (match goal with
          | |- context [if ?b then _ else _] => destruct b
          end; [intros [= <-]; reflexivity|]).
  rewrite Legacy_outcome_bind.
  destruct (Legacy.outcome _); [|discriminate].
  rewrite Legacy_outcome_bind.
  destruct (Legacy.outcome _); [|discriminate].
  intros [= <-]. reflexivity.
Qed.

Lemma ToPropertyKey_string (e : value) :
  typeof_string e = true -> exists k, e = VStr k.
Proof. destruct e; try discriminate. eauto. Qed.

(** A value whose conversion to a key throws is not a string: the shape test
    returns before the key is needed. *)
Lemma Legacy_receiver_bad_key (this : WsSchema) (on : gmap string (option callback))
    (window : bool) (s : string) (json e : value) (err : exn) :
  JSON.parse s = Normal json -> Get json "event" = Normal e ->
  ToPropertyKey e = Throw err ->
  Legacy.receiver this on window s = ([], Normal VUndefined).
Proof.
  intros Hs He Hk. unfold Legacy.receiver.
  rewrite Hs, Legacy_bind_lift_Normal. rewrite !He. rewrite Legacy_bind_lift_Normal.
  destruct (negb (ToBoolean e)); [reflexivity|].
  destruct (Get_defined json "event" "data" e He) as [d Hd]. rewrite !Hd.
  rewrite Legacy_bind_lift_Normal.
  destruct (negb (ToBoolean d)); [reflexivity|].
  rewrite Legacy_bind_lift_Normal.
  destruct (typeof_string e) eqn:Ht; [|reflexivity].
  destruct (ToPropertyKey_string e Ht) as [k ->]. discriminate Hk.
Qed.

(** X15.  The first receiver never throws: on every text, whatever the
    schema, the handlers (throwing or not) and [window] are, it returns
    [undefined]. *)
Theorem Legacy_receiver_never_throws (this : WsSchema)
    (on : gmap string (option callback)) (window : bool) (s : string) :
  Legacy.outcome (Legacy.receiver this on window s) = Normal VUndefined.
Proof.
  destruct (JSON.parse s) as [json|err] eqn:Hs.
  2:{ rewrite Legacy_receiver_undecoded, Legacy_catch_eq; [reflexivity|]. congruence. }
  destruct (Get json "event") as [e|err] eqn:He.
  2:{ rewrite Legacy_receiver_undecoded, Legacy_catch_eq; [reflexivity|].
      intros json' e' H H'. congruence. }
  destruct (Get_defined json "event" "data" e He) as [d Hd].
  destruct (ToPropertyKey e) as [key|err] eqn:Hk.
  2:{ rewrite (Legacy_receiver_bad_key this on window s json e err Hs He Hk). reflexivity. }
  rewrite (Legacy_receiver_decoded this on window s json e d key Hs He Hd Hk).
  rewrite Legacy_outcome_try_catch.
  destruct (Legacy.outcome (Legacy_body this on e d key)) as [a|err] eqn:Hb.
  - rewrite (Legacy_body_returns this on e d key a Hb). reflexivity.
  - rewrite Legacy_catch_eq. reflexivity.
Qed.


Lemma Legacy_receiver_accepts (this : WsSchema) (on : gmap string (option callback))
    (window : bool) (s : string) (json : value) (E : string) (P : value)
    (z : ZodType) (v : value) (h : callback) :
  JSON.parse s = Normal json ->
  Get json "event" = Normal (VStr E) -> Get json "data" = Normal P ->
  E <> EmptyString -> ToBoolean P = true ->
  validators this !! E = Some z -> parse z P = Normal v ->
  on !! E = Some (Some h) ->
  Legacy.receiver this on window s
  = (Legacy.Outside (Validate E P) :: Legacy.Outside (Handle E P) ::
       match h P with Normal _ => [] | Throw _ => console_calls window s end,
     Normal VUndefined).
Proof.
  intros Hs He Hd HE HP Hz Hv Hh.
  rewrite (Legacy_receiver_decoded this on window s json (VStr E) P E Hs He Hd eq_refl).
  unfold Legacy_body. cbn [ToBoolean typeof_string]. rewrite (string_nonempty E HE), HP.
  rewrite (validators_at_own this E z Hz), (includes_own on E _ Hh), Hh.
  cbn. rewrite Hv. cbn. rewrite Legacy_catch_eq. unfold console_calls.
  destruct (h P); destruct window; reflexivity.
Qed.

Lemma Legacy_receiver_rejects (this : WsSchema) (on : gmap string (option callback))
    (window : bool) (s : string) (json : value) (E : string) (P : value)
    (z : ZodType) (err : exn) (oh : option callback) :
  JSON.parse s = Normal json ->
  Get json "event" = Normal (VStr E) -> Get json "data" = Normal P ->
  E <> EmptyString -> ToBoolean P = true ->
  validators this !! E = Some z -> parse z P = Throw err ->
  on !! E = Some oh ->
  Legacy.receiver this on window s
  = (Legacy.Outside (Validate E P) :: console_calls window s, Normal VUndefined).
Proof.
  intros Hs He Hd HE HP Hz Hv Hh.
  rewrite (Legacy_receiver_decoded this on window s json (VStr E) P E Hs He Hd eq_refl).
  unfold Legacy_body. cbn [ToBoolean typeof_string]. rewrite (string_nonempty E HE), HP.
  rewrite (validators_at_own this E z Hz), (includes_own on E _ Hh).
  cbn. rewrite Hv. cbn. rewrite Legacy_catch_eq. unfold console_calls.
  destruct window; reflexivity.
Qed.

Lemma Legacy_receiver_drops (this : WsSchema) (on : gmap string (option callback))
    (window : bool) (s : string) (json e d : value) :
  JSON.parse s = Normal json ->
  Get json "event" = Normal e -> Get json "data" = Normal d ->
  ToBoolean e = false \/ ToBoolean d = false \/ typeof_string e = false \/
    (forall k, e = VStr k -> on !! k = None) ->
  Legacy.receiver this on window s = ([], Normal VUndefined).
Proof.
  intros Hs He Hd Hshape.
  destruct (ToPropertyKey e) as [key|err] eqn:Hk.
  2:{ exact (Legacy_receiver_bad_key this on window s json e err Hs He Hk). }
  rewrite (Legacy_receiver_decoded this on window s json e d key Hs He Hd Hk).
  unfold Legacy_body.
  destruct (ToBoolean e) eqn:Te; [|reflexivity].
  destruct (ToBoolean d) eqn:Td; [|reflexivity].
  destruct (typeof_string e) eqn:Ts; [|reflexivity].
  destruct Hshape as [H|[H|[H|H]]]; try discriminate H.
  destruct (ToPropertyKey_string e Ts) as [k ->].
  rewrite (includes_not_own on k (H k eq_refl)). reflexivity.
Qed.

Lemma not_in_console_calls (window : bool) (s : string) (c : call) :
  Legacy.Outside c ∉ console_calls window s.
Proof.
  unfold console_calls. destruct window; [|apply not_elem_of_nil].
  intros H. apply list_elem_of_singleton in H. discriminate H.
Qed.

Lemma Legacy_Handle_iff (this : WsSchema)
    (on : gmap string (option callback)) (window : bool) (s : string)
    (E : string) (P : value) :
  Legacy.Outside (Handle E P) ∈ Legacy.trace (Legacy.receiver this on window s) <->
  exists json z v h,
    JSON.parse s = Normal json /\
    Get json "event" = Normal (VStr E) /\ Get json "data" = Normal P /\
    E <> EmptyString /\ ToBoolean P = true /\
    validators this !! E = Some z /\ parse z P = Normal v /\
    on !! E = Some (Some h).
Proof.
  split.
  - intros Hin.
    destruct (JSON.parse s) as [json|err] eqn:Hs.
    2:{ rewrite Legacy_receiver_undecoded, Legacy_catch_eq in Hin by congruence.
        destruct (not_in_console_calls window s _ Hin). }
    destruct (Get json "event") as [e|err] eqn:He.
    2:{ rewrite Legacy_receiver_undecoded, Legacy_catch_eq in Hin.
        - destruct (not_in_console_calls window s _ Hin).
        - intros json' e' H H'. congruence. }
    destruct (Get_defined json "event" "data" e He) as [d Hd].
    destruct (ToBoolean e) eqn:Te.
    2:{ rewrite (Legacy_receiver_drops this on window s json e d Hs He Hd) in Hin by auto.
        apply elem_of_nil in Hin. contradiction. }
    destruct (ToBoolean d) eqn:Td.
    2:{ rewrite (Legacy_receiver_drops this on window s json e d Hs He Hd) in Hin by auto.
        apply elem_of_nil in Hin. contradiction. }
    destruct (typeof_string e) eqn:Ts.
    2:{ rewrite (Legacy_receiver_drops this on window s json e d Hs He Hd) in Hin by auto.
        apply elem_of_nil in Hin. contradiction. }
    destruct (ToPropertyKey_string e Ts) as [k ->].
    assert (k <> EmptyString) as Hk.
    { intros ->. discriminate Te. }
    destruct (on !! k) as [oh|] eqn:Hon.
    2:{ rewrite (Legacy_receiver_drops this on window s json (VStr k) d Hs He Hd) in Hin.
        - apply elem_of_nil in Hin. contradiction.
        - right. right. right. intros k' [= <-]. exact Hon. }
    destruct (validators_at this k) as [z| |] eqn:Hslot.
    + apply validators_at_Validator in Hslot.
      destruct (parse z d) as [v|err] eqn:Hp.
      * destruct oh as [h|].
        -- rewrite (Legacy_receiver_accepts this on window s json k d z v h
                      Hs He Hd Hk Td Hslot Hp Hon) in Hin.
           cbn [Legacy.trace fst] in Hin.
           apply elem_of_cons in Hin as [Hin|Hin]; [discriminate Hin|].
           apply elem_of_cons in Hin as [Hin|Hin].
           ++ injection Hin as <- <-. exists json, z, v, h. auto 10.
           ++ destruct (h d); [apply elem_of_nil in Hin; contradiction|].
              destruct (not_in_console_calls window s _ Hin).
        -- rewrite (Legacy_receiver_decoded this on window s json (VStr k) d k
                      Hs He Hd eq_refl) in Hin.
           unfold Legacy_body in Hin. rewrite Te, Td, Ts in Hin.
           rewrite (includes_own on k _ Hon), (validators_at_own this k z Hslot), Hon in Hin.
           cbn in Hin. rewrite Hp in Hin. cbn in Hin.
           apply elem_of_cons in Hin as [Hin|Hin]; [discriminate Hin|].
           apply elem_of_nil in Hin. contradiction.
      * rewrite (Legacy_receiver_rejects this on window s json k d z err oh
                   Hs He Hd Hk Td Hslot Hp Hon) in Hin.
        cbn [Legacy.trace fst] in Hin.
        apply elem_of_cons in Hin as [Hin|Hin]; [discriminate Hin|].
        destruct (not_in_console_calls window s _ Hin).
    + rewrite (Legacy_receiver_decoded this on window s json (VStr k) d k
                 Hs He Hd eq_refl) in Hin.
      unfold Legacy_body in Hin. rewrite Te, Td, Ts, Hslot in Hin.
      rewrite (includes_own on k _ Hon) in Hin.
      cbn in Hin. rewrite Legacy_catch_eq in Hin. cbn in Hin.
      destruct (not_in_console_calls window s _ Hin).
    + rewrite (Legacy_receiver_decoded this on window s json (VStr k) d k
                 Hs He Hd eq_refl) in Hin.
      unfold Legacy_body in Hin. rewrite Te, Td, Ts, Hslot in Hin.
      rewrite (includes_own on k _ Hon) in Hin.
      cbn in Hin. rewrite Legacy_catch_eq in Hin. cbn in Hin.
      destruct (not_in_console_calls window s _ Hin).
  - intros (json & z & v & h & Hs & He & Hd & HE & HP & Hz & Hv & Hh).
    rewrite (Legacy_receiver_accepts this on window s json E P z v h
               Hs He Hd HE HP Hz Hv Hh).
    cbn [Legacy.trace fst]. apply list_elem_of_further, list_elem_of_here.
Qed.

Lemma logged_app (t1 t2 : list Legacy.effect) :
  Legacy.logged (t1 ++ t2) = (Legacy.logged t1 ++ Legacy.logged t2)%list.
Proof.
  induction t1 as [|[c|a] t1 IH]; simpl; [reflexivity | exact IH | rewrite IH; reflexivity].
Qed.

Lemma Legacy_body_logs_nothing (this : WsSchema) (on : gmap string (option callback))
    (e d : value) (key : string) :
  Legacy.logged (Legacy.trace (Legacy_body this on e d key)) = [].
Proof.
  unfold Legacy_body.
  repeat (match goal with
          | |- context [if ?b then _ else _] => destruct b
          end; [reflexivity|]).
  destruct (validators_at this key) as [z| |]; try reflexivity.
  cbn. destruct (parse z d); [|reflexivity]. cbn.
  destruct (default None (on !! key)) as [h|]; [|reflexivity].
  cbn. destruct (h d); reflexivity.
Qed.

(** X16.  The first receiver calls [console.error] at most once on a text,
    and only where a global [window] exists; the call has two arguments,
    the fixed message and the raw text. *)
Theorem Legacy_receiver_log (this : WsSchema) (on : gmap string (option callback))
    (window : bool) (s : string) :
  Legacy.logged (Legacy.trace (Legacy.receiver this on window s)) = [] \/
  (window = true /\
   Legacy.logged (Legacy.trace (Legacy.receiver this on window s))
   = [[VStr Legacy.console_message; VStr s]]).
Proof.
  assert (Legacy.logged (console_calls window s) = [] \/
          (window = true /\
           Legacy.logged (console_calls window s)
           = [[VStr Legacy.console_message; VStr s]])) as Hcatch.
  { destruct window; [right; split; reflexivity | left; reflexivity]. }
  destruct (JSON.parse s) as [json|err] eqn:Hs.
  2:{ rewrite Legacy_receiver_undecoded, Legacy_catch_eq by congruence. exact Hcatch. }
  destruct (Get json "event") as [e|err] eqn:He.
  2:{ rewrite Legacy_receiver_undecoded, Legacy_catch_eq; [exact Hcatch|].
      intros json' e' H H'. congruence. }
  destruct (Get_defined json "event" "data" e He) as [d Hd].
  destruct (ToPropertyKey e) as [key|err] eqn:Hk.
  2:{ rewrite (Legacy_receiver_bad_key this on window s json e err Hs He Hk).
      left. reflexivity. }
  rewrite (Legacy_receiver_decoded this on window s json e d key Hs He Hd Hk).
  rewrite Legacy_trace_try_catch.
  destruct (Legacy.outcome (Legacy_body this on e d key)).
  - left. apply Legacy_body_logs_nothing.
  - rewrite logged_app, Legacy_body_logs_nothing, Legacy_catch_eq. exact Hcatch.
Qed.

(** X17.  A text that is not JSON, or that is the JSON [null] (where reading
    [json.event] throws): the first receiver calls no validator and no
    handler; its [catch] logs through [console.error] where [window]
    exists, and it returns [undefined]. *)
Theorem Legacy_receiver_undecodable (this : WsSchema)
    (on : gmap string (option callback)) (window : bool) (s : string) :
  (forall json, JSON.parse s = Normal json -> json = VNull) ->
  Legacy.receiver this on window s = (console_calls window s, Normal VUndefined).
Proof.
  intros H. rewrite Legacy_receiver_undecoded, Legacy_catch_eq; [reflexivity|].
  intros json e Hs He. rewrite (H json Hs) in He. discriminate He.
Qed.

(** *** The outcome of the first receiver on each kind of message *)

(** X18.  First receiver, a message [{event: E, data: P}] with [E] a non-empty
    string of the schema, [P] truthy and accepted by the validator, and a
    handler [h] for [E]: the validator is called on [P], then [h] on [P];
    if [h] throws, the [catch] logs where [window] exists; the receiver
    returns [undefined] either way. *)
Theorem Legacy_receiver_dispatch (this : WsSchema) (on : gmap string (option callback))
    (window : bool) (s : string) (json : value) (E : string) (P : value)
    (z : ZodType) (v : value) (h : callback) :
  JSON.parse s = Normal json ->
  Get json "event" = Normal (VStr E) -> Get json "data" = Normal P ->
  E <> EmptyString -> ToBoolean P = true ->
  validators this !! E = Some z -> parse z P = Normal v ->
  on !! E = Some (Some h) ->
  Legacy.receiver this on window s
  = (Legacy.Outside (Validate E P) :: Legacy.Outside (Handle E P) ::
       match h P with Normal _ => [] | Throw _ => console_calls window s end,
     Normal VUndefined).
Proof. exact (Legacy_receiver_accepts this on window s json E P z v h). Qed.

(** X19.  First receiver, a message [{event: E, data: P}] with [E] a
    non-empty string that has a validator in the schema and a key in the
    handler table, and [P] truthy, whose validator throws on [P], whatever
    the error: the validator is called, the handler is not; the [catch]
    logs where [window] exists, and the receiver returns [undefined]. *)
Theorem Legacy_receiver_rejected (this : WsSchema) (on : gmap string (option callback))
    (window : bool) (s : string) (json : value) (E : string) (P : value)
    (z : ZodType) (err : exn) (oh : option callback) :
  JSON.parse s = Normal json ->
  Get json "event" = Normal (VStr E) -> Get json "data" = Normal P ->
  E <> EmptyString -> ToBoolean P = true ->
  validators this !! E = Some z -> parse z P = Throw err ->
  on !! E = Some oh ->
  Legacy.receiver this on window s
  = (Legacy.Outside (Validate E P) :: console_calls window s, Normal VUndefined).
Proof. exact (Legacy_receiver_rejects this on window s json E P z err oh). Qed.

(** X20.  First receiver, a decoded message whose [event] is falsy or not a
    string, or whose [data] is falsy, or for whose event the table has no
    key: it is dropped in silence; nothing is called, nothing is logged,
    and the receiver returns [undefined]. *)
Theorem Legacy_receiver_dropped (this : WsSchema) (on : gmap string (option callback))
    (window : bool) (s : string) (json e d : value) :
  JSON.parse s = Normal json ->
  Get json "event" = Normal e -> Get json "data" = Normal d ->
  ToBoolean e = false \/ ToBoolean d = false \/ typeof_string e = false \/
    (forall k, e = VStr k -> on !! k = None) ->
  Legacy.receiver this on window s = ([], Normal VUndefined).
Proof. exact (Legacy_receiver_drops this on window s json e d). Qed.

(** X21.  When the first receiver calls a handler: exactly when the text
    decodes to a value whose [event] is a non-empty string [E] and whose
    [data] is a truthy [P], the schema has a validator for [E] that accepts
    [P], and the table has a handler for [E].  The handler is never given a
    payload that its validator rejected. *)
Theorem Legacy_receiver_dispatch_iff (this : WsSchema)
    (on : gmap string (option callback)) (window : bool) (s : string)
    (E : string) (P : value) :
  Legacy.Outside (Handle E P) ∈ Legacy.trace (Legacy.receiver this on window s) <->
  exists json z v h,
    JSON.parse s = Normal json /\
    Get json "event" = Normal (VStr E) /\ Get json "data" = Normal P /\
    E <> EmptyString /\ ToBoolean P = true /\
    validators this !! E = Some z /\ parse z P = Normal v /\
    on !! E = Some (Some h).
Proof. exact (Legacy_Handle_iff this on window s E P). Qed.

Lemma Legacy_receiver_dispatch_witness :
  Legacy.receiver chat {[ "message" := Some quiet ]} true hi_text
  = ([Legacy.Outside (Validate "message" (VStr "hi"));
      Legacy.Outside (Handle "message" (VStr "hi"))], Normal VUndefined).
Proof.
  apply (Legacy_receiver_dispatch chat {[ "message" := Some quiet ]} true hi_text
           (envelope "message" (VStr "hi")) "message" (VStr "hi") z.string (VStr "hi") quiet);
    try reflexivity. discriminate.
Defined.

Lemma Legacy_receiver_rejected_witness :
  Legacy.receiver chat {[ "message" := Some quiet ]} true
    (dq "{'event':'message','data':5}")
  = ([Legacy.Outside (Validate "message" (VNum 5 0));
      Legacy.ConsoleError
        [VStr Legacy.console_message; VStr (dq "{'event':'message','data':5}")]],
     Normal VUndefined).
Proof.
  apply (Legacy_receiver_rejected chat {[ "message" := Some quiet ]} true
           (dq "{'event':'message','data':5}") (envelope "message" (VNum 5 0))
           "message" (VNum 5 0) z.string ZodError (Some quiet));
    try reflexivity. discriminate.
Defined.

Lemma Legacy_receiver_dropped_witness :
  Legacy.receiver demo {[ "heartbeat" := Some quiet ]} true
    (dq "{'event':'heartbeat','data':0}")
  = ([], Normal VUndefined).
Proof.
  apply (Legacy_receiver_dropped demo {[ "heartbeat" := Some quiet ]} true
           (dq "{'event':'heartbeat','data':0}") (envelope "heartbeat" (VNum 0 0))
           (VStr "heartbeat") (VNum 0 0));
    try reflexivity. right. left. reflexivity.
Defined.

Lemma Legacy_receiver_undecodable_witness :
  Legacy.receiver chat {[ "message" := Some quiet ]} true "null"
  = ([Legacy.ConsoleError [VStr Legacy.console_message; VStr "null"]], Normal VUndefined).
Proof.
  apply (Legacy_receiver_undecodable chat {[ "message" := Some quiet ]} true "null").
  intros json H. vm_compute in H. congruence.
Defined.

(** ** Round trip through JSON *)

Lemma append_cons (x : ascii) (a b : string) : (String x a ++ b = String x (a ++ b))%string.
Proof. reflexivity. Qed.

Lemma append_nil (b : string) : (EmptyString ++ b = b)%string.
Proof. reflexivity. Qed.

Lemma string_app_assoc (a b c : string) : ((a ++ b) ++ c = a ++ (b ++ c))%string.
Proof.
  induction a as [|x a IH]; [reflexivity|]. rewrite !append_cons, IH. reflexivity.
Qed.

Lemma string_of_chars_app (l1 l2 : list ascii) :
  string_of_chars (l1 ++ l2) = (string_of_chars l1 ++ string_of_chars l2)%string.
Proof.
  induction l1 as [|x l1 IH]; [reflexivity|].
  cbn [app string_of_chars]. rewrite append_cons, IH. reflexivity.
Qed.

Lemma string_of_chars_of_string (s : string) : string_of_chars (chars_of_string s) = s.
Proof.
  induction s as [|c s IH]; [reflexivity|].
  cbn [chars_of_string string_of_chars]. f_equal. exact IH.
Qed.

(** A piece of text the lexer reads without emitting a token. *)
Lemma lex_run_silent (text : string) (st st' : JSON.lexstate) (tail : string) :
  lex_run st text = Some (st', []) ->
  JSON.lex st (text ++ tail) = JSON.lex st' tail.
Proof.
  revert st. induction text as [|c r IH]; intros st H.
  - injection H as <-. reflexivity.
  - rewrite append_cons. cbn [lex_run JSON.lex] in *.
    destruct (JSON.lex_step st c) as [[st1 ts]|]; [|discriminate].
    destruct (lex_run st1 r) as [[st2 ts']|] eqn:Hr; [|discriminate].
    injection H as <- H. apply app_eq_nil in H as [-> ->].
    rewrite (IH st1 Hr). destruct (JSON.lex st2 tail); reflexivity.
Qed.

Lemma lex_run_quote_char (c : ascii) (acc : list JSON.piece) :
  lex_run (JSON.LString acc) (string_of_chars (JSON.quote_char c))
  = Some (JSON.LString (piece_of c :: acc), []).
Proof. destruct c as [[] [] [] [] [] [] [] []]; reflexivity. Qed.

Lemma lex_quoted_chars (cs : list ascii) (acc : list JSON.piece) (tail : string) :
  JSON.lex (JSON.LString acc)
    (string_of_chars (flat_map JSON.quote_char cs) ++ tail)
  = JSON.lex (JSON.LString (rev (map piece_of cs) ++ acc)) tail.
Proof.
  revert acc. induction cs as [|c cs IH]; intros acc; [reflexivity|].
  cbn [flat_map map rev]. rewrite string_of_chars_app, string_app_assoc.
  rewrite (lex_run_silent _ _ _ _ (lex_run_quote_char c acc)).
  rewrite IH, <- app_assoc. reflexivity.
Qed.

Lemma decode_pieces_of (cs : list ascii) : JSON.decode_pieces (map piece_of cs) = cs.
Proof.
  induction cs as [|c cs IH]; [reflexivity|].
  cbn [map]. unfold piece_of at 1.
  destruct ((code c <? 32)%N && _) eqn:Hc.
  - assert ((code c <? 32)%N = true) as Hlt by (apply andb_true_iff in Hc; tauto).
    apply N.ltb_lt in Hlt.
    assert (JSON.is_high_surrogate (code c) = false) as Hhigh.
    { unfold JSON.is_high_surrogate. apply andb_false_iff. left. apply N.leb_gt. lia. }
    assert (utf8 (code c) = [c]) as Hutf.
    { unfold utf8. rewrite (proj2 (N.ltb_lt _ _)) by lia.
      unfold chr, code. rewrite ascii_N_embedding. reflexivity. }
    cbn [JSON.decode_pieces].
    destruct (map piece_of cs) as [|[c'|u] r] eqn:Hr;
      rewrite ?Hhigh; cbn [andb]; rewrite Hutf; cbn [app]; rewrite <- IH; reflexivity.
  - cbn [JSON.decode_pieces]. rewrite IH. reflexivity.
Qed.

(** The lexer reads [JSON.quote s] back as the one token [TString s]. *)
Lemma lex_quote (s : string) (tail : string) (ts : list JSON.token) :
  JSON.lex JSON.LDefault tail = Some ts ->
  JSON.lex JSON.LDefault (JSON.quote s ++ tail) = Some (JSON.TString s :: ts).
Proof.
  intros Htail. unfold JSON.quote.
  change (JSON.lex JSON.LDefault
            (String QUOTE ((string_of_chars (flat_map JSON.quote_char (chars_of_string s))
                            ++ String QUOTE EmptyString) ++ tail))
          = Some (JSON.TString s :: ts)).
  rewrite string_app_assoc.
  cbn [JSON.lex]. change (JSON.lex_step JSON.LDefault QUOTE)
    with (Some (JSON.LString [], @nil JSON.token)).
  cbv beta iota. rewrite lex_quoted_chars, app_nil_r.
  rewrite append_cons, append_nil. cbn [JSON.lex].

  change (JSON.lex_step (JSON.LString (rev (map piece_of (chars_of_string s)))) QUOTE)
    with (Some (JSON.LDefault,
                [JSON.TString (string_of_chars
                   (JSON.decode_pieces (rev (rev (map piece_of (chars_of_string s))))))])).
  cbv beta iota. rewrite Htail, rev_involutive, decode_pieces_of, string_of_chars_of_string.
  reflexivity.
Qed.

(** Induction on values that goes through the elements of arrays and the
    members of objects. *)
Lemma value_nested_ind (P : value -> Prop) :
  P VUndefined -> P VNull -> (forall b, P (VBool b)) -> (forall m e, P (VNum m e)) ->
  (forall s, P (VStr s)) ->
  (forall items, Forall P items -> P (VArr items)) ->
  (forall props, Forall (fun kv => P (snd kv)) props -> P (VObj props)) ->
  forall v, P v.
Proof.
  intros Hu Hn Hb Hm Hs Ha Ho.
  refine (fix IH (v : value) : P v :=
            match v with
            | VUndefined => Hu
            | VNull => Hn
            | VBool b => Hb b
            | VNum m e => Hm m e
            | VStr s => Hs s
            | VArr items =>
                Ha items ((fix go (l : list value) : Forall P l :=
                             match l with
                             | [] => Forall_nil_2 P
                             | x :: r => Forall_cons_2 P x r (IH x) (go r)
                             end) items)
            | VObj props =>
                Ho props ((fix go (l : list (string * value))
                            : Forall (fun kv => P (snd kv)) l :=
                             match l with
                             | [] => Forall_nil_2 _
                             | kv :: r => Forall_cons_2 _ kv r (IH (snd kv)) (go r)
                             end) props)
            end).
Qed.


Lemma lex_punctuation (c : ascii) (t : JSON.token) (tail : string) (ts : list JSON.token) :
  JSON.lex_step JSON.LDefault c = Some (JSON.LDefault, [t]) ->
  JSON.lex JSON.LDefault tail = Some ts ->
  JSON.lex JSON.LDefault (String c tail) = Some (t :: ts).
Proof. intros Hc Ht. cbn [JSON.lex]. rewrite Hc, Ht. reflexivity. Qed.

Lemma lexes_word (text : string) (t : JSON.token) :
  lex_run JSON.LDefault text = Some (JSON.LDefault, [t]) -> lexes text [t].
Proof.
  intros H tail ts _ Ht.
  assert (forall text st st' toks,
            lex_run st text = Some (st', toks) ->
            JSON.lex st (text ++ tail)
            = match JSON.lex st' tail with
              | Some ts' => Some (toks ++ ts')%list
              | None => None
              end) as Hgen.
  { clear. induction text as [|c r IH]; intros st st' toks H.
    - injection H as <- <-. rewrite append_nil. destruct (JSON.lex st tail); reflexivity.
    - rewrite append_cons. cbn [lex_run JSON.lex] in *.
      destruct (JSON.lex_step st c) as [[st1 ts1]|]; [|discriminate].
      destruct (lex_run st1 r) as [[st2 ts2]|] eqn:Hr; [|discriminate].
      injection H as <- <-. rewrite (IH _ _ _ Hr).
      destruct (JSON.lex st2 tail); [rewrite app_assoc|]; reflexivity. }
  rewrite (Hgen _ _ _ _ H), Ht. reflexivity.
Qed.

(** *** Integers *)


Lemma lex_run_digits (d : Decimal.uint) (a : JSON.numacc) :
  lex_run (JSON.LNumber JSON.NInt a) (NilEmpty.string_of_uint d)
  = Some (JSON.LNumber JSON.NInt (with_digits a (rev (uint_digits d) ++ JSON.digits a)), []).
Proof.
  revert a. induction d as [|d IH|d IH|d IH|d IH|d IH|d IH|d IH|d IH|d IH|d IH];
    intros a;
    [destruct a; reflexivity|..];
    cbn [NilEmpty.string_of_uint lex_run uint_digits rev];
    (match goal with
     | |- context [JSON.lex_step ?st ?c] =>
         let x := eval cbv in (JSON.digit c) in
         change (JSON.lex_step st c)
           with (Some (JSON.LNumber JSON.NInt (JSON.push_digit a x false), @nil JSON.token))
     end);
    cbv beta iota; rewrite IH; cbn [app];
    unfold with_digits, JSON.push_digit; cbn; rewrite <- app_assoc; reflexivity.
Qed.

Lemma repeat_app_cons {A} (x : A) (k : nat) (l : list A) :
  (repeat x k ++ x :: l = x :: repeat x k ++ l)%list.
Proof. induction k as [|k IH]; [reflexivity|]. cbn [repeat app]. rewrite IH. reflexivity. Qed.

Lemma lex_run_zeros (k : nat) (a : JSON.numacc) :
  lex_run (JSON.LNumber JSON.NInt a) (zeros k)
  = Some (JSON.LNumber JSON.NInt (with_digits a (repeat 0%N k ++ JSON.digits a)), []).
Proof.
  revert a. induction k as [|k IH]; intros a; [destruct a; reflexivity|].
  cbn [zeros lex_run].
  change (JSON.lex_step (JSON.LNumber JSON.NInt a) "0")
    with (Some (JSON.LNumber JSON.NInt (JSON.push_digit a 0%N false), @nil JSON.token)).
  cbv beta iota. rewrite IH. cbn [app].
  unfold with_digits, JSON.push_digit; cbn [JSON.digits JSON.negative JSON.scale
    JSON.exp_negative JSON.exponent repeat app].
  rewrite repeat_app_cons. reflexivity.
Qed.

Lemma lex_run_silent_app (s1 s2 : string) (st st1 : JSON.lexstate) :
  lex_run st s1 = Some (st1, []) -> lex_run st (s1 ++ s2) = lex_run st1 s2.
Proof.
  revert st. induction s1 as [|c r IH]; intros st H.
  - injection H as <-. reflexivity.
  - rewrite append_cons. cbn [lex_run] in *.
    destruct (JSON.lex_step st c) as [[st' ts]|]; [|discriminate].
    destruct (lex_run st' r) as [[st'' ts']|] eqn:Hr; [|discriminate].
    injection H as <- H. apply app_eq_nil in H as [-> ->].
    rewrite (IH st' Hr). destruct (lex_run st'' s2) as [[? ?]|]; reflexivity.
Qed.

Lemma lex_run_numeral (neg : bool) (d : Decimal.uint) :
  leading d ->
  lex_run JSON.LDefault ((if neg then "-" else EmptyString) ++ NilEmpty.string_of_uint d)
  = Some (JSON.LNumber JSON.NInt
            (with_digits (JSON.numacc_init neg []) (rev (uint_digits d))), []).
Proof.
  intros Hd. destruct neg; destruct d; try contradiction;
    rewrite ?append_cons, ?append_nil; cbn [NilEmpty.string_of_uint lex_run];
    repeat (match goal with
     | |- context [JSON.lex_step ?st ?c] =>
         let r := eval cbv in (JSON.lex_step st c) in
         change (JSON.lex_step st c) with r
     end; cbv beta iota);
    rewrite lex_run_digits; cbn [uint_digits rev JSON.digits app];
    reflexivity.
Qed.

Lemma uint_digits_revapp (d d' : Decimal.uint) :
  uint_digits (Decimal.revapp d d') = (rev (uint_digits d) ++ uint_digits d')%list.
Proof.
  revert d'. induction d; intros d'; cbn [Decimal.revapp uint_digits rev];
    rewrite ?IHd; cbn [uint_digits]; rewrite <- ?app_assoc; reflexivity.
Qed.

Lemma uint_digits_rev (d : Decimal.uint) :
  uint_digits (Decimal.rev d) = rev (uint_digits d).
Proof. unfold Decimal.rev. rewrite uint_digits_revapp. apply app_nil_r. Qed.

Lemma digits_value_uint (u : Decimal.uint) :
  JSON.digits_value (uint_digits u) = Z.of_N (DecimalPos.Unsigned.of_lu u).
Proof.
  induction u; cbn [uint_digits JSON.digits_value DecimalPos.Unsigned.of_lu];
    rewrite ?IHu; lia.
Qed.

Lemma strip_zeros_repeat (k : nat) (l : list N) :
  JSON.strip_zeros l = (l, 0) ->
  JSON.strip_zeros (repeat 0%N k ++ l) = (l, Z.of_nat k).
Proof.
  intros H. induction k as [|k IH]; [exact H|].
  cbn [repeat app JSON.strip_zeros]. rewrite IH. cbn. f_equal. lia.
Qed.

Lemma lex_after_number (a : JSON.numacc) (tail : string) (ts : list JSON.token) :
  delimited tail -> JSON.lex JSON.LDefault tail = Some ts ->
  JSON.lex (JSON.LNumber JSON.NInt a) tail = Some (JSON.number_token a :: ts).
Proof.
  intros Hd Ht. destruct tail as [|c r].
  - injection Ht as <-. reflexivity.
  - assert (exists t, JSON.lex_step JSON.LDefault c = Some (JSON.LDefault, [t]) /\
                      JSON.lex_step (JSON.LNumber JSON.NInt a) c
                      = Some (JSON.LDefault, [JSON.number_token a; t])) as (t & H1 & H2).
    { destruct Hd as [->|[->| ->]]; eexists; split; reflexivity. }
    cbn [JSON.lex] in *. rewrite H1 in Ht. rewrite H2.
    destruct (JSON.lex JSON.LDefault r) as [ts'|]; [|discriminate Ht].
    injection Ht as <-. reflexivity.
Qed.

Lemma lex_after_zero (tail : string) (ts : list JSON.token) :
  delimited tail -> JSON.lex JSON.LDefault tail = Some ts ->
  JSON.lex JSON.LDefault (String "0" tail) = Some (JSON.TNumber 0 0 :: ts).
Proof.
  intros Hd Ht. cbn [JSON.lex].
  change (JSON.lex_step JSON.LDefault "0")
    with (Some (JSON.LNumber JSON.NZero (JSON.numacc_init false [0%N]), @nil JSON.token)).
  cbv beta iota. destruct tail as [|c r].
  - injection Ht as <-. reflexivity.
  - assert (exists t, JSON.lex_step JSON.LDefault c = Some (JSON.LDefault, [t]) /\
                      JSON.lex_step (JSON.LNumber JSON.NZero (JSON.numacc_init false [0%N])) c
                      = Some (JSON.LDefault, [JSON.TNumber 0 0; t])) as (t & H1 & H2).
    { destruct Hd as [->|[->| ->]]; eexists; split; reflexivity. }
    cbn [JSON.lex] in *. rewrite H1 in Ht. rewrite H2.
    destruct (JSON.lex JSON.LDefault r) as [ts'|]; [|discriminate Ht].
    injection Ht as <-. reflexivity.
Qed.

Lemma nzhead_leading (u : Decimal.uint) :
  Decimal.nzhead u = Decimal.Nil \/ leading (Decimal.nzhead u).
Proof. induction u; cbn; auto. Qed.

Lemma to_uint_leading (p : positive) : leading (Pos.to_uint p).
Proof.
  pose proof (DecimalPos.Unsigned.to_of (Pos.to_uint p)) as H.
  rewrite DecimalPos.Unsigned.of_to in H. cbn [N.to_uint] in H.
  pose proof (DecimalPos.Unsigned.to_uint_nonzero p) as Hz.
  unfold Decimal.unorm in H.
  destruct (nzhead_leading (Pos.to_uint p)) as [Hn|Hl].
  - rewrite Hn in H. congruence.
  - destruct (Decimal.nzhead (Pos.to_uint p)) eqn:E; try contradiction;
      rewrite H; exact I.
Qed.

Lemma numeral_value (p : positive) :
  JSON.digits_value (rev (uint_digits (Pos.to_uint p))) = Z.pos p.
Proof.
  rewrite <- uint_digits_rev, digits_value_uint.
  rewrite <- DecimalPos.Unsigned.of_uint_alt, DecimalPos.Unsigned.of_to. reflexivity.
Qed.

Lemma numeral_last_digit (p : positive) :
  (Z.pos p) mod 10 <> 0 ->
  exists h l, rev (uint_digits (Pos.to_uint p)) = h :: l /\ h <> 0%N.
Proof.
  intros Hmod. pose proof (numeral_value p) as Hv.
  rewrite <- uint_digits_rev in *.
  destruct (Decimal.rev (Pos.to_uint p)) as [|u|u|u|u|u|u|u|u|u|u];
    cbn [uint_digits JSON.digits_value] in *;
    try (eexists; eexists; split; [reflexivity | discriminate]).
  - discriminate Hv.
  - exfalso. apply Hmod. rewrite <- Hv.
    rewrite Z.add_0_l, Z.mul_comm. apply Z.mod_mul. discriminate.
Qed.

Lemma string_of_uint_nonnil (d : Decimal.uint) :
  d <> Decimal.Nil -> NilZero.string_of_uint d = NilEmpty.string_of_uint d.
Proof. destruct d; [contradiction | reflexivity..]. Qed.

Lemma lexes_integer (m e : Z) :
  plain_integer m e = true -> lexes (Number_toString m e) [JSON.TNumber m e].
Proof.
  unfold plain_integer, Number_toString. intros Hp tail ts Hd Ht.
  destruct (m =? 0) eqn:Hm0.
  - apply Z.eqb_eq in Hm0, Hp. subst. apply lex_after_zero; assumption.
  - apply andb_true_iff in Hp as [Hp _].
    apply andb_true_iff in Hp as [Hp Hlen]. apply andb_true_iff in Hp as [Hmod He].
    apply Z.eqb_neq in Hm0. apply negb_true_iff, Z.eqb_neq in Hmod.
    apply Z.leb_le in He, Hlen.
    set (s := digits_of_N (Z.to_N (Z.abs m))) in *.
    set (k := Z.of_nat (String.length s)) in *.
    assert ((k <=? k + e) && (k + e <=? 21) = true) as ->.
    { apply andb_true_iff. split; apply Z.leb_le; lia. }
    replace (k + e - k) with e by lia.
    destruct (Z.abs m) as [|p|p] eqn:Habs; try lia.
    unfold digits_of_N in s. cbn [Z.to_N N.to_uint] in s.
    assert (s = NilEmpty.string_of_uint (Pos.to_uint p)) as Hs.
    { apply string_of_uint_nonnil, DecimalPos.Unsigned.to_uint_nonnil. }
    rewrite Hs.
    rewrite <- string_app_assoc, string_app_assoc.
    rewrite (lex_run_silent _ _ _ _
               (lex_run_numeral (m <? 0) (Pos.to_uint p) (to_uint_leading p))).
    rewrite (lex_run_silent _ _ _ _ (lex_run_zeros (Z.to_nat e) _)).
    rewrite (lex_after_number _ tail ts Hd Ht). f_equal.
    unfold JSON.number_token, with_digits, JSON.numacc_init.
    cbn [JSON.digits JSON.negative JSON.scale JSON.exp_negative JSON.exponent].
    assert (Z.pos p mod 10 <> 0) as Hmod'.
    { intros H. apply Hmod. destruct m; try discriminate; cbn in Habs; injection Habs as ->.
      - exact H.
      - change (Z.neg p) with (- Z.pos p).
        apply Z.mod_divide; [discriminate|]. apply Z.divide_opp_r.
        apply Z.mod_divide; [discriminate | exact H]. }
    destruct (numeral_last_digit p Hmod') as (h & l & Hl & Hh).
    rewrite strip_zeros_repeat.
    2:{ rewrite Hl. cbn [JSON.strip_zeros].
        rewrite (proj2 (N.eqb_neq h 0) Hh). reflexivity. }
    rewrite Hl at 1. rewrite numeral_value. cbn [app].
    replace (0 - 0 + Z.of_nat (Z.to_nat e)) with e by lia.
    replace (if m <? 0 then - Z.pos p else Z.pos p) with m; [reflexivity|].
    destruct (m <? 0) eqn:Hneg; [apply Z.ltb_lt in Hneg | apply Z.ltb_ge in Hneg]; lia.
Qed.

(** *** Arrays and objects *)

Lemma serialize_VArr (items : list value) :
  JSON.serialize (VArr items) = Some ("[" ++ join "," (element_texts items) ++ "]").
Proof.
  reflexivity.
Qed.

Lemma serialize_VObj (props : list (string * value)) :
  JSON.serialize (VObj props) = Some ("{" ++ join "," (member_texts props) ++ "}").
Proof.
  reflexivity.
Qed.

Lemma lex_char (c : ascii) (t : JSON.token) (tail : string) (ts : list JSON.token) :
  JSON.lex_step JSON.LDefault c = Some (JSON.LDefault, [t]) ->
  JSON.lex JSON.LDefault tail = Some ts ->
  JSON.lex JSON.LDefault (String c EmptyString ++ tail) = Some (t :: ts).
Proof. intros Hc Ht. rewrite append_cons, append_nil. apply lex_punctuation; assumption. Qed.

Lemma join_cons2 (sep x y : string) (r : list string) :
  join sep (x :: y :: r) = x ++ sep ++ join sep (y :: r).
Proof. reflexivity. Qed.

Lemma lex_elements (items : list value) (tail : string) (ts : list JSON.token) :
  Forall lexes_back items -> forallb plain items = true ->
  JSON.lex JSON.LDefault tail = Some ts ->
  JSON.lex JSON.LDefault (join "," (element_texts items) ++ "]" ++ tail)
  = Some (comma_separated (map tokens_of items) ++ JSON.TRBracket :: ts)%list.
Proof.
  intros Hall Hplain Ht.
  assert (JSON.lex JSON.LDefault ("]" ++ tail) = Some (JSON.TRBracket :: ts)) as Hclose.
  { apply lex_char; [reflexivity | exact Ht]. }
  induction Hall as [|x r Hx Hr IH]; [exact Hclose|].
  cbn [forallb] in Hplain. apply andb_true_iff in Hplain as [Hpx Hpr].
  destruct (Hx Hpx) as (t & Hser & Hlex).
  specialize (IH Hpr).
  unfold element_texts in *. cbn [map]. rewrite Hser. cbn [default].
  destruct r as [|y r].
  - cbn [map join comma_separated]. apply Hlex; [| exact Hclose].
    change ("]" ++ tail) with (String "]" tail). right. left. reflexivity.
  - cbn [map] in *. rewrite join_cons2, !string_app_assoc.
    change (comma_separated (tokens_of x :: tokens_of y :: map tokens_of r))
      with (tokens_of x ++ JSON.TComma :: comma_separated (tokens_of y :: map tokens_of r))%list.
    rewrite <- app_assoc. apply Hlex.
    + match goal with |- delimited ("," ++ ?u) => change ("," ++ u) with (String "," u) end.
      left. reflexivity.
    + cbn [app]. apply lex_char; [reflexivity | exact IH].
Qed.

Lemma lex_members (props : list (string * value)) (tail : string) (ts : list JSON.token) :
  Forall (fun kv => lexes_back (snd kv)) props ->
  forallb (fun kv => plain (snd kv)) props = true ->
  JSON.lex JSON.LDefault tail = Some ts ->
  JSON.lex JSON.LDefault (join "," (member_texts props) ++ "}" ++ tail)
  = Some (comma_separated
            (map (fun kv => JSON.TString (fst kv) :: JSON.TColon :: tokens_of (snd kv)) props)
          ++ JSON.TRBrace :: ts)%list.
Proof.
  intros Hall Hplain Ht.
  assert (JSON.lex JSON.LDefault ("}" ++ tail) = Some (JSON.TRBrace :: ts)) as Hclose.
  { apply lex_char; [reflexivity | exact Ht]. }
  induction Hall as [|[k x] r Hx Hr IH]; [exact Hclose|].
  cbn [forallb snd] in Hplain. apply andb_true_iff in Hplain as [Hpx Hpr].
  cbn [snd] in Hx. destruct (Hx Hpx) as (t & Hser & Hlex).
  specialize (IH Hpr).
  cbn [member_texts map fst snd]. rewrite Hser.
  destruct r as [|[k' y] r].
  - cbn [member_texts map join comma_separated]. rewrite !string_app_assoc.
    apply lex_quote. apply lex_char; [reflexivity|].
    apply Hlex; [| exact Hclose].
    change ("}" ++ tail) with (String "}" tail). right. right. reflexivity.
  - remember ((k', y) :: r) as r' eqn:Er.
    assert (exists u us, member_texts r' = u :: us) as (u & us & Hu).
    { subst r'. cbn [member_texts]. cbn [forallb snd] in Hpr.
      apply andb_true_iff in Hpr as [Hpy _].
      inversion Hr as [|? ? Hy _]; subst. cbn [snd] in Hy.
      destruct (Hy Hpy) as (ty & Hsy & _). rewrite Hsy. eauto. }
    rewrite Hu in *. rewrite join_cons2, !string_app_assoc.
    assert (comma_separated
              ((JSON.TString k :: JSON.TColon :: tokens_of x)
               :: map (fun kv => JSON.TString (fst kv) :: JSON.TColon :: tokens_of (snd kv)) r')
            = (JSON.TString k :: JSON.TColon :: tokens_of x)
              ++ JSON.TComma ::
                 comma_separated
                   (map (fun kv => JSON.TString (fst kv) :: JSON.TColon :: tokens_of (snd kv)) r'))%list
      as ->.
    { subst r'. reflexivity. }
    rewrite <- app_assoc. cbn [app].
    apply lex_quote. apply lex_char; [reflexivity|].
    apply Hlex.
    + match goal with |- delimited ("," ++ ?w) => change ("," ++ w) with (String "," w) end.
      left. reflexivity.
    + cbn [app]. apply lex_char; [reflexivity | exact IH].
Qed.

Lemma lexes_value (v : value) : lexes_back v.
Proof.
  induction v as [| |b|m e|s|items IH|props IH] using value_nested_ind;
    unfold lexes_back; intros Hp.
  - discriminate.
  - exists "null". split; [reflexivity|]. apply lexes_word. reflexivity.
  - destruct b.
    + exists "true". split; [reflexivity|]. apply lexes_word. reflexivity.
    + exists "false". split; [reflexivity|]. apply lexes_word. reflexivity.
  - eexists. split; [reflexivity|]. apply lexes_integer. exact Hp.
  - eexists. split; [reflexivity|]. intros tail ts _ Ht. apply lex_quote. exact Ht.
  - eexists. split; [apply serialize_VArr|]. intros tail ts _ Ht.
    rewrite !string_app_assoc. cbn [tokens_of].
    change ("[" ++ join "," (element_texts items) ++ "]" ++ tail)
      with (String "[" (join "," (element_texts items) ++ "]" ++ tail)).
    cbn [app]. rewrite <- app_assoc. cbn [app].
    apply lex_punctuation; [reflexivity|].
    apply lex_elements; assumption.
  - cbn [plain] in Hp. apply andb_true_iff in Hp as [Hp _].
    apply andb_true_iff in Hp as [Hp _].
    eexists. split; [apply serialize_VObj|]. intros tail ts _ Ht.
    rewrite !string_app_assoc. cbn [tokens_of].
    change ("{" ++ join "," (member_texts props) ++ "}" ++ tail)
      with (String "{" (join "," (member_texts props) ++ "}" ++ tail)).
    cbn [app]. rewrite <- app_assoc. cbn [app].
    apply lex_punctuation; [reflexivity|].
    apply lex_members; assumption.
Qed.

(** *** The parser on the tokens of a value *)

Lemma append_nil_r (s : string) : s ++ EmptyString = s.
Proof. induction s as [|c s IH]; [reflexivity|]. rewrite append_cons, IH. reflexivity. Qed.

Lemma first_item (x : value) (stack : list JSON.frame) (rest : list JSON.token) :
  plain x = true ->
  JSON.parse_tokens (JSON.PFirstItem stack) (tokens_of x ++ rest)
  = JSON.parse_tokens (JSON.PValue (JSON.FArray [] :: stack)) (tokens_of x ++ rest).
Proof. destruct x as [| |[]| | | |]; intros Hp; try discriminate; reflexivity. Qed.

Lemma parse_items (items : list value) :
  Forall parses_back items -> forallb plain items = true -> items <> [] ->
  forall acc stack rest,
    JSON.parse_tokens (JSON.PValue (JSON.FArray acc :: stack))
      (comma_separated (map tokens_of items) ++ JSON.TRBracket :: rest)
    = JSON.parse_tokens (JSON.after_value (VArr (rev acc ++ items)) stack) rest.
Proof.
  intros Hall. induction Hall as [|x r Hx Hr IH]; intros Hp Hne acc stack rest;
    [congruence|].
  cbn [forallb] in Hp. apply andb_true_iff in Hp as [Hpx Hpr].
  destruct r as [|y r].
  - cbn [map comma_separated]. rewrite (Hx Hpx). reflexivity.
  - cbn [map] in *.
    change (comma_separated (tokens_of x :: tokens_of y :: map tokens_of r))
      with (tokens_of x ++ JSON.TComma :: comma_separated (tokens_of y :: map tokens_of r))%list.
    rewrite <- app_assoc. rewrite (Hx Hpx). cbn [app JSON.after_value JSON.parse_tokens JSON.parse_step].
    rewrite (IH Hpr ltac:(discriminate)). cbn [rev]. rewrite <- app_assoc. reflexivity.
Qed.

Lemma set_property_new (props : list (string * value)) (k : string) (v : value) :
  k ∉ map fst props -> set_property props k v = (props ++ [(k, v)])%list.
Proof.
  induction props as [|[k' v'] r IH]; intros Hk; [reflexivity|].
  cbn [set_property]. destruct (String.eqb_spec k' k) as [->|Hne].
  - exfalso. apply Hk. cbn [map fst]. apply list_elem_of_here.
  - rewrite IH; [reflexivity|]. intros Hin. apply Hk. cbn [map fst].
    apply list_elem_of_further. exact Hin.
Qed.

Lemma parse_members (props : list (string * value)) :
  Forall (fun kv => parses_back (snd kv)) props ->
  forallb (fun kv => plain (snd kv)) props = true -> props <> [] ->
  forall acc stack rest st,
    NoDup (map fst (acc ++ props)) ->
    (forall k toks, JSON.parse_tokens st (JSON.TString k :: toks)
                    = JSON.parse_tokens (JSON.PColon acc k stack) toks) ->
    JSON.parse_tokens st
      (comma_separated
         (map (fun kv => JSON.TString (fst kv) :: JSON.TColon :: tokens_of (snd kv)) props)
       ++ JSON.TRBrace :: rest)
    = JSON.parse_tokens (JSON.after_value (VObj (acc ++ props)) stack) rest.
Proof.
  intros Hall. induction Hall as [|[k x] r Hx Hr IH];
    intros Hp Hne acc stack rest st Hnd Hst; [congruence|].
  cbn [forallb snd] in Hp. apply andb_true_iff in Hp as [Hpx Hpr]. cbn [snd] in Hx.
  assert (k ∉ map fst acc) as Hk.
  { rewrite map_app in Hnd. apply NoDup_app in Hnd as (_ & Hd & _).
    intros Hin. apply (Hd _ Hin). cbn [map fst]. apply list_elem_of_here. }
  destruct r as [|[k' y] r].
  - cbn [map comma_separated fst snd app]. rewrite Hst.
    cbn [JSON.parse_tokens JSON.parse_step]. rewrite (Hx Hpx).
    cbn [JSON.after_value JSON.parse_tokens JSON.parse_step].
    rewrite set_property_new by exact Hk. reflexivity.
  - remember ((k', y) :: r) as r' eqn:Er.
    assert (comma_separated
              (map (fun kv => JSON.TString (fst kv) :: JSON.TColon :: tokens_of (snd kv))
                 ((k, x) :: r'))
            = (JSON.TString k :: JSON.TColon :: tokens_of x)
              ++ JSON.TComma ::
                 comma_separated
                   (map (fun kv => JSON.TString (fst kv) :: JSON.TColon :: tokens_of (snd kv)) r'))%list
      as ->.
    { subst r'. reflexivity. }
    rewrite <- app_assoc. cbn [app]. rewrite Hst.
    cbn [JSON.parse_tokens JSON.parse_step]. rewrite (Hx Hpx).
    cbn [app JSON.after_value JSON.parse_tokens JSON.parse_step].
    rewrite set_property_new by exact Hk.
    rewrite (IH Hpr ltac:(subst r'; discriminate) (acc ++ [(k, x)])%list stack rest).
    + rewrite <- app_assoc. reflexivity.
    + rewrite <- app_assoc. exact Hnd.
    + intros k0 toks. reflexivity.
Qed.

Lemma parses_value (v : value) : parses_back v.
Proof.
  induction v as [| |b|m e|s|items IH|props IH] using value_nested_ind;
    unfold parses_back; intros Hp stack rest.
  - discriminate.
  - reflexivity.
  - destruct b; reflexivity.
  - reflexivity.
  - reflexivity.
  - cbn [tokens_of app]. rewrite <- app_assoc. cbn [app JSON.parse_tokens JSON.parse_step JSON.start_value].
    destruct items as [|x r]; [reflexivity|].
    cbn [plain] in Hp.
    assert (plain x = true) as Hpx.
    { cbn [forallb] in Hp. apply andb_true_iff in Hp as [Hpx _]. exact Hpx. }
    remember (x :: r) as items eqn:Ei.
    assert (comma_separated (map tokens_of items)
            = tokens_of x ++ match r with
                             | [] => []
                             | _ => JSON.TComma :: comma_separated (map tokens_of r)
                             end)%list as Hc.
    { subst items. destruct r; cbn [map comma_separated]; [rewrite app_nil_r|]; reflexivity. }
    rewrite Hc, <- app_assoc, first_item, app_assoc, <- Hc by exact Hpx.
    rewrite (parse_items items IH Hp ltac:(subst items; discriminate)). reflexivity.
  - cbn [tokens_of app]. rewrite <- app_assoc. cbn [app JSON.parse_tokens JSON.parse_step JSON.start_value].
    destruct props as [|kx r]; [reflexivity|].
    cbn [plain] in Hp. apply andb_true_iff in Hp as [Hp Hnd].
    apply andb_true_iff in Hp as [Hp _]. apply bool_decide_eq_true_1 in Hnd.
    rewrite (parse_members (kx :: r) IH Hp ltac:(discriminate) [] stack rest);
      [reflexivity | exact Hnd |].
    intros k toks. reflexivity.
Qed.

Lemma parse_serialized (v : value) :
  plain v = true ->
  exists text, JSON.serialize v = Some text /\ JSON.parse text = Normal v.
Proof.
  intros Hp. destruct (lexes_value v Hp) as (text & Hs & Hl).
  exists text. split; [exact Hs|]. unfold JSON.parse.
  specialize (Hl EmptyString [] I eq_refl). rewrite append_nil_r, app_nil_r in Hl.
  rewrite Hl. pose proof (parses_value v Hp [] []) as Hparse.
  rewrite app_nil_r in Hparse. rewrite Hparse. reflexivity.
Qed.

(** ** From the sender to the receiver *)

Lemma plain_envelope (E : string) (P : value) :
  plain P = true -> plain (envelope E P) = true.
Proof.
  intros HP. unfold envelope. cbn [plain forallb snd fst map]. rewrite HP. reflexivity.
Qed.

Lemma stringify_envelope (E : string) (P : value) :
  plain P = true ->
  exists text, JSON.stringify (envelope E P) = VStr text /\
               JSON.parse text = Normal (envelope E P).
Proof.
  intros HP. destruct (parse_serialized _ (plain_envelope E P HP)) as (text & Hs & Hp).
  exists text. unfold JSON.stringify. rewrite Hs. split; [reflexivity | exact Hp].
Qed.

Lemma stringify_chain (this : WsSchema) (E : string) (P : value) :
  (b <- send this E ;; m <- data b P ;; stringify m tt)
  = ([], Normal (JSON.stringify (envelope E P))).
Proof. reflexivity. Qed.

Lemma receiver_falsy_data_eq (this : WsSchema) (on : gmap string (option callback))
    (config : Config) (s : string) (json : value) (E : string) (P : value)
    (z : ZodType) (v : value) (h : callback) (r : value) :
  JSON.parse s = Normal json ->
  Get json "event" = Normal (VStr E) -> Get json "data" = Normal P ->
  E <> EmptyString -> ToBoolean P = false ->
  validators this !! E = Some z -> parse z P = Normal v ->
  on !! E = Some (Some h) -> h P = Normal r ->
  hook_returns (hook_of config MalformedJSON) ->
  receiver this on config s
  = ((call_if_set (Report MalformedJSON json) (hook_of config MalformedJSON)
      ++ [Validate E P; Handle E P])%list,
     Normal VUndefined).
Proof.
  intros Hs He Hd HE HP Hz Hv Hh Hr Hhook.
  rewrite (receiver_decoded this on config s json (VStr E) P E Hs He Hd eq_refl).
  cbn [ToBoolean typeof_string]. rewrite (string_nonempty E HE), HP.
  rewrite (validators_at_own this E z Hz), (includes_own on E _ Hh), Hh.
  destruct (optional_call_returns (Report MalformedJSON json) _ json Hhook) as [r' Hr'].
  unfold hook_of in *. cbn. rewrite Hr'. cbn. rewrite Hv. cbn. rewrite Hr.
  rewrite ?app_nil_r. reflexivity.
Qed.

(** X22.  A message with falsy data ([0], [false], the empty string, [null],
    or none) that its validator accepts, for an event with a handler: the
    receiver calls [onMalformedJSON] (if set) on the decoded message, and
    then, as that report does not return, the validator and the handler on
    the data; it returns [undefined].  (Hook and handler are taken to
    return.) *)
Theorem receiver_falsy_data (this : WsSchema) (on : gmap string (option callback))
    (config : Config) (s : string) (json : value) (E : string) (P : value)
    (z : ZodType) (v : value) (h : callback) (r : value) :
  JSON.parse s = Normal json ->
  Get json "event" = Normal (VStr E) -> Get json "data" = Normal P ->
  E <> EmptyString -> ToBoolean P = false ->
  validators this !! E = Some z -> parse z P = Normal v ->
  on !! E = Some (Some h) -> h P = Normal r ->
  hook_returns (hook_of config MalformedJSON) ->
  receiver this on config s
  = ((call_if_set (Report MalformedJSON json) (hook_of config MalformedJSON)
      ++ [Validate E P; Handle E P])%list,
     Normal VUndefined).
Proof. exact (receiver_falsy_data_eq this on config s json E P z v h r). Qed.

Lemma receiver_falsy_data_witness :
  receiver demo {[ "heartbeat" := Some quiet ]} all_hooks
    (dq "{'event':'heartbeat','data':0}")
  = ([ Report MalformedJSON (envelope "heartbeat" (VNum 0 0));
       Validate "heartbeat" (VNum 0 0); Handle "heartbeat" (VNum 0 0) ],
     Normal VUndefined).
Proof.
  apply (receiver_falsy_data demo {[ "heartbeat" := Some quiet ]} all_hooks
           (dq "{'event':'heartbeat','data':0}") (envelope "heartbeat" (VNum 0 0))
           "heartbeat" (VNum 0 0) z.number (VNum 0 0) quiet VUndefined);
    try reflexivity; [discriminate | apply all_hooks_hook_returns].
Defined.

(** X23.  For a payload that JSON holds as it is (see [plain]), whatever the
    event name: [send(E).data(P).stringify()] returns a text, calling
    nothing, and [JSON.parse] of that text is the value that
    [send(E).data(P).object()] returns. *)
Theorem stringify_parses_to_object (this : WsSchema) (E : string) (P : value) :
  plain P = true ->
  exists text json,
    (b <- send this E ;; m <- data b P ;; stringify m tt) = ([], Normal (VStr text)) /\
    (b <- send this E ;; m <- data b P ;; object m tt) = ([], Normal json) /\
    JSON.parse text = Normal json.
Proof.
  intros HP. destruct (stringify_envelope E P HP) as (text & Hs & Hp).
  exists text, (envelope E P). rewrite stringify_chain, Hs.
  split; [reflexivity|]. split; [reflexivity | exact Hp].
Qed.

Lemma stringify_parses_to_object_witness :
  exists text json,
    (b <- send chat "message" ;; m <- data b (VArr [VStr "hi"; VNum 12 1; VNull]) ;;
     stringify m tt) = ([], Normal (VStr text)) /\
    (b <- send chat "message" ;; m <- data b (VArr [VStr "hi"; VNum 12 1; VNull]) ;;
     object m tt) = ([], Normal json) /\
    JSON.parse text = Normal json.
Proof.
  apply (stringify_parses_to_object chat "message" (VArr [VStr "hi"; VNum 12 1; VNull])).
  reflexivity.
Defined.

(** X24.  From sender to receiver.  Let [E] be a non-empty event name with a
    validator in the receiving schema and a handler that returns, and [P] a
    truthy payload that JSON holds as it is and that the validator accepts.
    Then the text [send(E).data(P).stringify()] of any sender, given to the
    receiver, makes it call the validator on [P] and then the handler on
    [P], no hook, and return [undefined]. *)
Theorem send_then_receive (sender this : WsSchema) (on : gmap string (option callback))
    (config : Config) (E : string) (P : value) (z : ZodType) (v : value)
    (h : callback) (r : value) :
  plain P = true -> ToBoolean P = true -> E <> EmptyString ->
  validators this !! E = Some z -> parse z P = Normal v ->
  on !! E = Some (Some h) -> h P = Normal r ->
  exists text,
    (b <- send sender E ;; m <- data b P ;; stringify m tt) = ([], Normal (VStr text)) /\
    receiver this on config text = ([Validate E P; Handle E P], Normal VUndefined).
Proof.
  intros Hplain HP HE Hz Hv Hh Hr.
  destruct (stringify_envelope E P Hplain) as (text & Hs & Hp).
  exists text. rewrite stringify_chain, Hs. split; [reflexivity|].
  apply (receiver_accepts this on config text (envelope E P) E P z v h r);
    solve [assumption | reflexivity].
Qed.

Lemma send_then_receive_witness :
  exists text,
    (b <- send demo "message" ;; m <- data b (VStr "hi") ;; stringify m tt)
    = ([], Normal (VStr text)) /\
    receiver chat {[ "message" := Some quiet ]} all_hooks text
    = ([Validate "message" (VStr "hi"); Handle "message" (VStr "hi")], Normal VUndefined).
Proof.
  apply (send_then_receive demo chat {[ "message" := Some quiet ]} all_hooks
           "message" (VStr "hi") z.string (VStr "hi") quiet VUndefined);
    try reflexivity. discriminate.
Defined.

(** X25.  Under the same conditions, every call that
    [send(E).data(P).to(r).emit()] makes is a [send] of a text on a socket,
    and the receiver given that text calls the validator on [P] and then
    the handler on [P], and returns [undefined]. *)
Theorem emit_then_receive (sender this : WsSchema) (on : gmap string (option callback))
    (config : Config) (E : string) (P : value) (z : ZodType) (v : value)
    (h : callback) (r : value) (dest : recipients) :
  plain P = true -> ToBoolean P = true -> E <> EmptyString ->
  validators this !! E = Some z -> parse z P = Normal v ->
  on !! E = Some (Some h) -> h P = Normal r ->
  Forall (fun c => exists socket text,
            c = Send socket (VStr text) /\
            receiver this on config text
            = ([Validate E P; Handle E P], Normal VUndefined))
    (trace (b <- send sender E ;; m <- data b P ;; e <- to m dest ;; emit e tt)).
Proof.
  intros Hplain HP HE Hz Hv Hh Hr.
  destruct (stringify_envelope E P Hplain) as (text & Hs & Hp).
  rewrite emit_chain, Hs. cbv zeta. cbn [trace fst]. apply Forall_forall. intros c Hc.
  apply list_elem_of_fmap in Hc as (socket & -> & _).
  exists socket, text. split; [reflexivity|].
  apply (receiver_accepts this on config text (envelope E P) E P z v h r);
    solve [assumption | reflexivity].
Qed.

Lemma emit_then_receive_witness :
  Forall (fun c => exists socket text,
            c = Send socket (VStr text) /\
            receiver chat {[ "message" := Some quiet ]} all_hooks text
            = ([Validate "message" (VStr "hi"); Handle "message" (VStr "hi")],
               Normal VUndefined))
    (trace (b <- send demo "message" ;; m <- data b (VStr "hi") ;;
            e <- to m (Sockets [open_socket 1; open_socket 2]) ;; emit e tt)).
Proof.
  apply (emit_then_receive demo chat {[ "message" := Some quiet ]} all_hooks
           "message" (VStr "hi") z.string (VStr "hi") quiet VUndefined
           (Sockets [open_socket 1; open_socket 2]));
    try reflexivity. discriminate.
Defined.

(** X26.  The same for the first receiver, whose handler may throw: the text
    of [send(E).data(P).stringify()] makes it call the validator on [P] and
    then the handler on [P]; it logs only if the handler throws and
    [window] exists. *)
Theorem Legacy_send_then_receive (sender this : WsSchema)
    (on : gmap string (option callback)) (window : bool) (E : string) (P : value)
    (z : ZodType) (v : value) (h : callback) :
  plain P = true -> ToBoolean P = true -> E <> EmptyString ->
  validators this !! E = Some z -> parse z P = Normal v ->
  on !! E = Some (Some h) ->
  exists text,
    (b <- send sender E ;; m <- data b P ;; stringify m tt) = ([], Normal (VStr text)) /\
    Legacy.receiver this on window text
    = (Legacy.Outside (Validate E P) :: Legacy.Outside (Handle E P) ::
         match h P with Normal _ => [] | Throw _ => console_calls window text end,
       Normal VUndefined).
Proof.
  intros Hplain HP HE Hz Hv Hh.
  destruct (stringify_envelope E P Hplain) as (text & Hs & Hp).
  exists text. rewrite stringify_chain, Hs. split; [reflexivity|].
  apply (Legacy_receiver_accepts this on window text (envelope E P) E P z v h);
    solve [assumption | reflexivity].
Qed.

Lemma Legacy_send_then_receive_witness :
  exists text,
    (b <- send demo "message" ;; m <- data b (VStr "hi") ;; stringify m tt)
    = ([], Normal (VStr text)) /\
    Legacy.receiver chat {[ "message" := Some quiet ]} true text
    = ([Legacy.Outside (Validate "message" (VStr "hi"));
        Legacy.Outside (Handle "message" (VStr "hi"))], Normal VUndefined).
Proof.
  apply (Legacy_send_then_receive demo chat {[ "message" := Some quiet ]} true
           "message" (VStr "hi") z.string (VStr "hi") quiet);
    try reflexivity. discriminate.
Defined.

(** X27.  The two receivers compared.  With hooks that return, every handler
    call the first receiver makes on a text, the second receiver makes on
    it too. *)
Theorem second_receiver_dispatches_more (this : WsSchema)
    (on : gmap string (option callback)) (config : Config) (window : bool)
    (s : string) (E : string) (P : value) :
  hooks_return config ->
  Legacy.Outside (Handle E P) ∈ Legacy.trace (Legacy.receiver this on window s) ->
  Handle E P ∈ trace (receiver this on config s).
Proof.
  intros Hhooks Hin.
  apply Legacy_Handle_iff in Hin
    as (json & z & v & h & Hs & He & Hd & _ & _ & Hz & Hv & Hh).
  apply (Handle_iff this on config s E P Hhooks).
  exists json, z, h. repeat split; try assumption. right. exists v. exact Hv.
Qed.

Lemma second_receiver_dispatches_more_witness :
  Handle "message" (VStr "hi")
    ∈ trace (receiver chat {[ "message" := Some quiet ]} all_hooks hi_text).
Proof.
  apply (second_receiver_dispatches_more chat {[ "message" := Some quiet ]} all_hooks
           true hi_text "message" (VStr "hi") all_hooks_return).
  vm_compute. apply list_elem_of_further, list_elem_of_here.
Defined.
